(* Shallow embedding of x10mqtt.py (MQTT <-> X10 gateway driving heyu).

   Strings are Rocq strings of ASCII characters; the case mappings below
   are Python's str.upper / str.lower restricted to ASCII.  Regular
   expressions are embedded as an AST run by a backtracking matcher that
   returns its successes in Python's priority order, so the first success
   is the match Python's re module reports. *)

From Stdlib Require Import String Ascii List ZArith Lia Bool.
Import ListNotations.
Open Scope string_scope.
Open Scope nat_scope.

(* ------------------------------------------------------------------ *)
(** * Python string helpers *)

Module Py.

Definition ascii_upper (c : ascii) : ascii :=
  let n := nat_of_ascii c in
  if (97 <=? n) && (n <=? 122) then ascii_of_nat (n - 32) else c.

Definition ascii_lower (c : ascii) : ascii :=
  let n := nat_of_ascii c in
  if (65 <=? n) && (n <=? 90) then ascii_of_nat (n + 32) else c.

Fixpoint map_str (f : ascii -> ascii) (s : string) : string :=
  match s with
  | EmptyString => EmptyString
  | String c r => String (f c) (map_str f r)
  end.

(** [s.upper()] and [s.lower()]. *)
Definition upper (s : string) : string := map_str ascii_upper s.
Definition lower (s : string) : string := map_str ascii_lower s.

(** [s.split(sep)] for a one-character separator. *)
Fixpoint split (sep : ascii) (s : string) : list string :=
  match s with
  | EmptyString => [""]
  | String c r =>
      let parts := split sep r in
      if Ascii.eqb c sep then "" :: parts
      else match parts with
           | p :: ps => String c p :: ps
           | [] => [String c ""]
           end
  end.

(** [str(n)] for a non-negative integer. *)
Fixpoint digits_of (fuel n : nat) (acc : string) : string :=
  match fuel with
  | O => acc
  | S f =>
      let d := String (ascii_of_nat (48 + n mod 10)) acc in
      if n <? 10 then d else digits_of f (n / 10) d
  end.

Definition str_nat (n : nat) : string := digits_of (S n) n "".

(** [str(z)] for an integer (return codes may be negative). *)
Definition str_Z (z : Z) : string :=
  match z with
  | Z0 => "0"
  | Zpos p => str_nat (Pos.to_nat p)
  | Zneg p => "-" ++ str_nat (Pos.to_nat p)
  end.

Definition hex_digit (n : nat) : ascii :=
  if n <? 10 then ascii_of_nat (48 + n) else ascii_of_nat (87 + n).

(** JSON string literal as produced by [json.dumps] (ensure_ascii). *)
Fixpoint json_escape (s : string) : string :=
  match s with
  | EmptyString => EmptyString
  | String c r =>
      let n := nat_of_ascii c in
      let e :=
        if n =? 34 then "\" ++ String c ""
        else if n =? 92 then "\\"
        else if n =? 10 then "\n"
        else if n =? 13 then "\r"
        else if n =? 9 then "\t"
        else if n =? 8 then "\b"
        else if n =? 12 then "\f"
        else if (32 <=? n) && (n <=? 126) then String c ""
        else "\u00" ++ String (hex_digit (n / 16)) (String (hex_digit (n mod 16)) "")
      in e ++ json_escape r
  end.

Definition json_str (s : string) : string :=
  String (ascii_of_nat 34) (json_escape s ++ String (ascii_of_nat 34) "").

Fixpoint json_members (kv : list (string * string)) : string :=
  match kv with
  | [] => ""
  | [(k, v)] => json_str k ++ ": " ++ json_str v
  | (k, v) :: rest => json_str k ++ ": " ++ json_str v ++ ", " ++ json_members rest
  end.

(** [json.dumps(d)] for a dict whose keys and values are strings,
    with the default separators. *)
Definition json_dumps (kv : list (string * string)) : string :=
  "{" ++ json_members kv ++ "}".

Definition q : ascii := "'".
Definition dq : ascii := ascii_of_nat 34.

(** [repr(s)] of a string: single quotes unless the text contains a
    single quote and no double quote. *)
Fixpoint repr_body (quote : ascii) (s : string) : string :=
  match s with
  | EmptyString => EmptyString
  | String c r =>
      let n := nat_of_ascii c in
      let e :=
        if n =? 92 then "\\"
        else if Ascii.eqb c quote then String (ascii_of_nat 92) (String c "")
        else if n =? 10 then "\n"
        else if n =? 13 then "\r"
        else if n =? 9 then "\t"
        else if (32 <=? n) && (n <=? 126) then String c ""
        else "\x" ++ String (hex_digit (n / 16)) (String (hex_digit (n mod 16)) "")
      in e ++ repr_body quote r
  end.

Fixpoint has_char (c : ascii) (s : string) : bool :=
  match s with
  | EmptyString => false
  | String d r => Ascii.eqb c d || has_char c r
  end.

Definition repr (s : string) : string :=
  let quote := if has_char q s && negb (has_char dq s) then dq else q in
  String quote (repr_body quote s ++ String quote "").

Fixpoint repr_members (kv : list (string * string)) : string :=
  match kv with
  | [] => ""
  | [(k, v)] => repr k ++ ": " ++ repr v
  | (k, v) :: rest => repr k ++ ": " ++ repr v ++ ", " ++ repr_members rest
  end.

(** [str(d)] of a dict of strings. *)
Definition repr_dict (kv : list (string * string)) : string :=
  "{" ++ repr_members kv ++ "}".

End Py.

(* ------------------------------------------------------------------ *)
(** * Regular expressions, Python [re] semantics *)

Module Re.

(** The constructs the program's patterns use.  [ClassR] is a bracket
    class of character ranges, [Any] is [.] (everything but a newline),
    [Star] is greedy [*], [Group n] is capturing group [n], [Bol] is [^]
    and [Eol] is [$] without MULTILINE (end of text, or before a final
    newline). *)
Inductive re : Type :=
| Eps
| Chr (c : ascii)
| ClassR (ranges : list (ascii * ascii))
| Any
| Alt (r1 r2 : re)
| Cat (r1 r2 : re)
| Star (r : re)
| Group (n : nat) (r : re)
| Bol
| Eol.

Definition Plus (r : re) : re := Cat r (Star r).

Fixpoint Lit (s : string) : re :=
  match s with
  | EmptyString => Eps
  | String c EmptyString => Chr c
  | String c r => Cat (Chr c) (Lit r)
  end.

Definition in_range (c : ascii) (rg : ascii * ascii) : bool :=
  (nat_of_ascii (fst rg) <=? nat_of_ascii c) && (nat_of_ascii c <=? nat_of_ascii (snd rg)).

(** Captured groups: the most recent text of each group number. *)
Definition caps := list (nat * list ascii).

(** A partial match: remaining input, position reached, captures. *)
Definition mstate := (list ascii * nat * caps)%type.

Definition newline : ascii := ascii_of_nat 10.

(** Greedy iteration: every iteration has to consume input; longer
    iteration counts come first, as in a backtracking engine. *)
Fixpoint star_iter (mr : list ascii -> nat -> caps -> list mstate)
         (fuel : nat) (s : list ascii) (p : nat) (c : caps) : list mstate :=
  match fuel with
  | O => [(s, p, c)]
  | S f =>
      (flat_map (fun '(s', p', c') =>
                   if length s' <? length s then star_iter mr f s' p' c' else [])
                (mr s p c) ++ [(s, p, c)])%list
  end.

(** [m r s p c]: all ways of matching [r] at the front of [s] (which
    sits at position [p] of the subject), in priority order. *)
Fixpoint m (r : re) (s : list ascii) (p : nat) (c : caps) : list mstate :=
  match r with
  | Eps => [(s, p, c)]
  | Chr ch =>
      match s with
      | x :: s' => if Ascii.eqb x ch then [(s', S p, c)] else []
      | [] => []
      end
  | ClassR rgs =>
      match s with
      | x :: s' => if existsb (in_range x) rgs then [(s', S p, c)] else []
      | [] => []
      end
  | Any =>
      match s with
      | x :: s' => if Ascii.eqb x newline then [] else [(s', S p, c)]
      | [] => []
      end
  | Alt r1 r2 => (m r1 s p c ++ m r2 s p c)%list
  | Cat r1 r2 => flat_map (fun '(s', p', c') => m r2 s' p' c') (m r1 s p c)
  | Star r1 => star_iter (m r1) (S (length s)) s p c
  | Group n r1 =>
      map (fun '(s', p', c') => (s', p', (n, firstn (p' - p) s) :: c'))
          (m r1 s p c)
  | Bol => if p =? 0 then [(s, p, c)] else []
  | Eol =>
      match s with
      | [] => [(s, p, c)]
      | [x] => if Ascii.eqb x newline then [(s, p, c)] else []
      | _ => []
      end
  end.

Fixpoint lookup_cap (n : nat) (c : caps) : option (list ascii) :=
  match c with
  | [] => None
  | (k, v) :: r => if k =? n then Some v else lookup_cap n r
  end.

(** A match object: its captures, or [None] for Python's [None]. *)
Definition first_caps (l : list mstate) : option caps :=
  match l with
  | (_, _, c) :: _ => Some c
  | [] => None
  end.

(** [pattern.match(s)]: anchored at the start of [s]. *)
Definition match_ (r : re) (s : string) : option caps :=
  first_caps (m r (list_ascii_of_string s) 0 []).

Fixpoint search_from (r : re) (s : list ascii) (p : nat) : option caps :=
  match first_caps (m r s p []) with
  | Some c => Some c
  | None =>
      match s with
      | [] => None
      | _ :: s' => search_from r s' (S p)
      end
  end.

(** [pattern.search(s)]: the leftmost position where [r] matches. *)
Definition search (r : re) (s : string) : option caps :=
  search_from r (list_ascii_of_string s) 0.

(** [matchobj.group(n)] as a string (the groups used always take part). *)
Definition group (n : nat) (c : caps) : string :=
  match lookup_cap n c with
  | Some v => string_of_list_ascii v
  | None => ""
  end.

End Re.

(* ------------------------------------------------------------------ *)
(** * The gateway *)

Module X10.
Import Py Re.

(** Configuration read from the environment at start-up. *)
Record config := {
  cmdtopic : string;           (* CMD_TOPIC, default "x10/cmd" *)
  stattopic : string;          (* STAT_TOPIC, default "x10/stat" *)
  discoveryhouses : list string; (* letters of DISCOVERY_HOUSECODES *)
  discoverytopic : string;     (* DISCOVERY_TOPIC, default "homeassistant" *)
  cm17 : bool                  (* USE_CM17 = "true" *)
}.

Definition housecode_letters : string := "ABCDEFGHIJKLMNOP".

(** [[h for h in discoveryhouses.upper() if h in "ABCDEFGHIJKLMNOP"]] *)
Fixpoint discovery_houses_of (s : string) : list string :=
  match s with
  | EmptyString => []
  | String c r =>
      let h := ascii_upper c in
      if has_char h housecode_letters then String h "" :: discovery_houses_of r
      else discovery_houses_of r
  end.

(** What the program does to the outside world, in order. *)
Inductive effect : Type :=
| Print (line : string)
| Run (argv : list string)            (* subprocess.run, waited for *)
| Popen (argv : list string)          (* subprocess.Popen *)
| Subscribe (topic : string)
| Publish (topic payload : string) (retain : bool).

Definition runs (l : list effect) : list (list string) :=
  flat_map (fun e => match e with Run a => [a] | _ => [] end) l.

Definition publishes (l : list effect) : list (string * string * bool) :=
  flat_map (fun e => match e with Publish t p r => [(t, p, r)] | _ => [] end) l.

(** ** execute *)

(** [execute(client, cmd, housecode)]; [rc] is the return code that
    [subprocess.run] reports for the heyu call. *)
Definition heyucmd_of (cfg : config) (cmd : string) : string :=
  if cm17 cfg then
    let c1 := if String.eqb (lower cmd) "on" then "fon" else cmd in
    if String.eqb (lower cmd) "off" then "foff" else c1
  else cmd.

Definition execute (cfg : config) (cmd housecode : string) (rc : Z)
  : list effect * Z :=
  let heyucmd := heyucmd_of cfg cmd in
  ((Run ["heyu"; lower heyucmd; lower housecode]
    :: (if Z.eqb rc 0 then []
        else [Print ("Error running heyu, return code: " ++ str_Z rc)])
    ++ [Print ("Device Status Update: " ++ stattopic cfg ++ "/" ++ lower housecode);
        Publish (stattopic cfg ++ "/" ++ lower housecode) (upper cmd) true])%list,
   rc).

(** ** on_message *)

Definition ap_class : re := ClassR [("A"%char, "P"%char)].
Definition digit_class : re := ClassR [("0"%char, "9"%char)].

(** [re.compile("^[A-P][0-9]+$")] *)
Definition hcpattern : re := Cat Bol (Cat ap_class (Cat (Plus digit_class) Eol)).

Definition slash : ascii := "/".

(** [topiclist[len(topiclist)-1]] with [topiclist = topic.split("/")]. *)
Definition last_segment (topic : string) : string :=
  last (split slash topic) "".

Definition is_on_off (command : string) : bool :=
  String.eqb command "ON" || String.eqb command "OFF".

Definition is_some {A} (o : option A) : bool :=
  match o with Some _ => true | None => false end.

(** [on_message(client, userdata, message)] for a message whose payload
    decodes to [payload]; [rc] is what heyu would return if run. *)
Definition on_message (cfg : config) (topic payload : string) (rc : Z)
  : list effect :=
  let command := upper payload in
  let hc := upper (last_segment topic) in
  (Print ("Received: " ++ topic ++ " " ++ command)
   :: if is_on_off command && is_some (match_ hcpattern hc) then
        Print ("Sending X10 command to homecode " ++ hc)
        :: fst (execute cfg command hc rc)
      else [Print "Invalid command or home code"])%list.

(** ** Discovery *)

(** The dict built by [ha_discovery_announce]. *)
Definition discovery_config (cfg : config) (house : string) (unit : nat)
  : list (string * string) :=
  [("name", "X10 Module " ++ upper house ++ str_nat unit);
   ("state_topic", stattopic cfg ++ "/" ++ lower house ++ str_nat unit);
   ("command_topic", cmdtopic cfg ++ "/" ++ lower house ++ str_nat unit);
   ("unique_id", "x10mqtt_x10_" ++ lower house ++ str_nat unit)].

Definition discovery_topic (cfg : config) (house : string) (unit : nat) : string :=
  discoverytopic cfg ++ "/switch/x10mqtt/x10_" ++ lower house ++ str_nat unit ++ "/config".

Definition ha_discovery_announce (cfg : config) (house : string) (unit : nat)
  : list effect :=
  let conf := discovery_config cfg house unit in
  let topic := discovery_topic cfg house unit in
  [Print ("Publishing at " ++ topic ++ ": " ++ repr_dict conf);
   Publish topic (json_dumps conf) true].

(** [for unit in range(1, 17)] *)
Definition units : list nat := seq 1 16.

(** [on_connect(client, userdata, flags, rc)] *)
Definition on_connect (cfg : config) (rc : nat) : list effect :=
  ((if rc =? 0 then [] else [Print ("Error connecting to MQTT broker rc " ++ str_nat rc)])
   ++ [Print ("Connected to MQTT broker, result code " ++ str_nat rc);
       Subscribe (cmdtopic cfg ++ "/+")]
   ++ flat_map (fun house =>
        Print ("Announcing housecode " ++ house ++ " for HomeAssistant discovery")
        :: flat_map (fun unit => ha_discovery_announce cfg house unit) units)
        (discoveryhouses cfg))%list.

(** ** The monitor loop *)

Definition prefixes : re :=
  Alt (Lit "rcvi") (Alt (Lit "rcvt") (Alt (Lit "sndc")
    (Alt (Lit "snds") (Alt (Lit "sndm") (Lit "sndt"))))).

(** [r"(?:rcvi|rcvt|sndc|snds|sndm|sndt) addr unit.+hu ([A-P][0-9]+)"] *)
Definition rercviaddr : re :=
  Cat prefixes (Cat (Lit " addr unit") (Cat (Plus Any)
    (Cat (Lit "hu ") (Group 1 (Cat ap_class (Plus digit_class)))))).

(** [r"(?:rcvi|rcvt|sndc|snds|sndm|sndt) func.*(On|Off) :"] *)
Definition rercvifunc : re :=
  Cat prefixes (Cat (Lit " func") (Cat (Star Any)
    (Cat (Group 1 (Alt (Lit "On") (Lit "Off"))) (Lit " :")))).

(** [rcviaddr(housecode)]: the new value of the global [rcvihc]. *)
Definition rcviaddr (housecode : string) : string := housecode.

(** [rcvifunc(client, func)] with the global [rcvihc] passed in and out. *)
Definition rcvifunc (cfg : config) (rcvihc func : string) : string * list effect :=
  if String.eqb rcvihc "" then (rcvihc, [])
  else ("",
        [Print ("Remote status change, publishing stat update: " ++ stattopic cfg
                ++ "/" ++ lower rcvihc ++ " is now " ++ upper func);
         Publish (stattopic cfg ++ "/" ++ lower rcvihc) (upper func) true]).

(** One iteration of [for line in monitor(): ...]. *)
Definition monitor_line (cfg : config) (rcvihc line : string) : string * list effect :=
  let addrsearch := search rercviaddr line in
  let funcsearch := search rercvifunc line in
  let rcvihc1 := match addrsearch with
                 | Some g => rcviaddr (group 1 g)
                 | None => rcvihc
                 end in
  match funcsearch with
  | Some g => rcvifunc cfg rcvihc1 (group 1 g)
  | None => (rcvihc1, [])
  end.

Fixpoint monitor_loop (cfg : config) (rcvihc : string) (lines : list string)
  : string * list effect :=
  match lines with
  | [] => (rcvihc, [])
  | l :: ls =>
      let '(h1, e1) := monitor_line cfg rcvihc l in
      let '(h2, e2) := monitor_loop cfg h1 ls in
      (h2, (e1 ++ e2)%list)
  end.

(** How the program ends. *)
Inductive outcome : Type :=
| Finished                 (* the loop ends, the script falls off its end *)
| Raised (exn : string).   (* an uncaught exception terminates it *)

(** The generator [monitor()] after heyu has written [lines] and exited
    with [return_code]: [raise subprocess.CalledProcessError(return_code,
    cmd)] evaluates the undefined global [cmd] first, so it raises a
    NameError. *)
Definition monitor_end (return_code : Z) : outcome :=
  if Z.eqb return_code 0 then Finished else Raised "NameError".

(** The main monitor loop, from the initial [rcvihc = ""]. *)
Definition main_monitor (cfg : config) (lines : list string) (return_code : Z)
  : list effect * outcome :=
  (Popen ["heyu"; "monitor"] :: snd (monitor_loop cfg "" lines),
   monitor_end return_code).

End X10.

(* ------------------------------------------------------------------ *)
(** * Helper facts *)

Module Facts.
Import Py Re X10.

(** The housecode grammar [[A-P][0-9]+] spelled out on characters. *)
Definition is_ap (c : ascii) : bool := in_range c ("A"%char, "P"%char).
Definition is_digit (c : ascii) : bool := in_range c ("0"%char, "9"%char).

Fixpoint all_digits (s : string) : bool :=
  match s with
  | EmptyString => true
  | String c r => is_digit c && all_digits r
  end.

Definition housecode (h : string) : Prop :=
  exists l ds, h = String l ds /\ is_ap l = true /\ ds <> "" /\ all_digits ds = true.

Lemma is_digit_range (c : ascii) :
  is_digit c = true -> 48 <= nat_of_ascii c <= 57.
Proof.
  unfold is_digit, in_range; cbn [fst snd].
  change (nat_of_ascii "0"%char) with 48. change (nat_of_ascii "9"%char) with 57.
  intros H. apply andb_true_iff in H as [H1 H2].
  apply Nat.leb_le in H1, H2. lia.
Qed.

Lemma is_ap_range (c : ascii) :
  is_ap c = true -> 65 <= nat_of_ascii c <= 80.
Proof.
  unfold is_ap, in_range; cbn [fst snd].
  change (nat_of_ascii "A"%char) with 65. change (nat_of_ascii "P"%char) with 80.
  intros H. apply andb_true_iff in H as [H1 H2].
  apply Nat.leb_le in H1, H2. lia.
Qed.

Lemma split_no_sep (sep : ascii) (h : string) :
  has_char sep h = false -> split sep h = [h].
Proof.
  induction h as [|c r IH]; simpl; [reflexivity|].
  intros H. apply orb_false_iff in H as [H1 H2].
  rewrite IH by exact H2.
  rewrite Ascii.eqb_sym, H1. reflexivity.
Qed.

Lemma split_app_sep (sep : ascii) (p h : string) :
  exists x pre, split sep (p ++ String sep h) = (x :: pre ++ split sep h)%list.
Proof.
  induction p as [|c r IH]; simpl.
  - rewrite Ascii.eqb_refl. exists "", []. reflexivity.
  - destruct IH as [x [pre E]]. rewrite E.
    destruct (Ascii.eqb c sep).
    + exists "", (x :: pre). reflexivity.
    + exists (String c x), pre. reflexivity.
Qed.

Lemma last_segment_app (p h : string) :
  has_char slash h = false -> last_segment (p ++ "/" ++ h) = h.
Proof.
  intros H. unfold last_segment.
  destruct (split_app_sep slash p h) as [x [pre E]].
  change ("/" ++ h) with (String slash h). rewrite E.
  rewrite split_no_sep by exact H.
  change (x :: pre ++ [h])%list with ((x :: pre) ++ [h])%list.
  apply last_last.
Qed.

Lemma ascii_upper_small (c : ascii) :
  nat_of_ascii c < 97 -> ascii_upper c = c.
Proof.
  intros H. unfold ascii_upper.
  destruct (97 <=? nat_of_ascii c) eqn:E; [apply Nat.leb_le in E; lia|reflexivity].
Qed.

Lemma upper_digits (ds : string) : all_digits ds = true -> upper ds = ds.
Proof.
  induction ds as [|c r IH]; [reflexivity|].
  intros H. simpl in H. apply andb_true_iff in H as [H1 H2].
  apply is_digit_range in H1.
  change (upper (String c r)) with (String (ascii_upper c) (upper r)).
  rewrite ascii_upper_small by lia. rewrite IH by exact H2.
  reflexivity.
Qed.

Lemma upper_housecode (h : string) : housecode h -> upper h = h.
Proof.
  intros [l [ds [-> [Hl [_ Hd]]]]].
  apply is_ap_range in Hl.
  change (upper (String l ds)) with (String (ascii_upper l) (upper ds)).
  rewrite ascii_upper_small by lia. rewrite upper_digits by exact Hd.
  reflexivity.
Qed.

Lemma all_digits_no_slash (ds : string) : all_digits ds = true -> has_char slash ds = false.
Proof.
  induction ds as [|c r IH]; [reflexivity|].
  intros H. simpl in H. apply andb_true_iff in H as [H1 H2].
  change (has_char slash (String c r)) with (Ascii.eqb slash c || has_char slash r).
  rewrite IH by exact H2. rewrite orb_false_r.
  apply is_digit_range in H1.
  apply Ascii.eqb_neq. intros E. subst c. change (nat_of_ascii slash) with 47 in H1. lia.
Qed.

Lemma housecode_no_slash (h : string) : housecode h -> has_char slash h = false.
Proof.
  intros [l [ds [-> [Hl [_ Hd]]]]].
  change (has_char slash (String l ds)) with (Ascii.eqb slash l || has_char slash ds).
  rewrite all_digits_no_slash by exact Hd. rewrite orb_false_r.
  apply is_ap_range in Hl.
  apply Ascii.eqb_neq. intros E. subst l. change (nat_of_ascii slash) with 47 in Hl. lia.
Qed.

Lemma flat_map_In_nonempty {A B} (f : A -> list B) (l : list A) (x : A) :
  In x l -> f x <> [] -> flat_map f l <> [].
Proof.
  induction l as [|y l IH]; simpl; [tauto|].
  intros [<-|Hin] Hf E; apply app_eq_nil in E as [E1 E2]; [contradiction|].
  exact (IH Hin Hf E2).
Qed.

Fixpoint all_digits_l (s : list ascii) : bool :=
  match s with
  | [] => true
  | c :: r => is_digit c && all_digits_l r
  end.

Lemma all_digits_l_of (s : string) : all_digits_l (list_ascii_of_string s) = all_digits s.
Proof. induction s; simpl; congruence. Qed.

Lemma m_digit (d : ascii) (ds : list ascii) p c :
  is_digit d = true -> m digit_class (d :: ds) p c = [(ds, S p, c)].
Proof. intros H. unfold is_digit in H. simpl. rewrite H. reflexivity. Qed.

Lemma star_digits (ds : list ascii) :
  all_digits_l ds = true ->
  forall f p c, length ds < f ->
  exists p', In ([], p', c) (star_iter (m digit_class) f ds p c).
Proof.
  induction ds as [|d ds IH]; intros Hd f p c Hf.
  - destruct f as [|f]; [simpl in Hf; lia|].
    exists p. simpl. auto.
  - simpl in Hd. apply andb_true_iff in Hd as [H1 H2].
    destruct f as [|f]; [simpl in Hf; lia|].
    cbn [star_iter]. rewrite m_digit by exact H1. cbn [flat_map].
    replace (length ds <? length (d :: ds)) with true
      by (symmetry; apply Nat.ltb_lt; simpl; lia).
    destruct (IH H2 f (S p) c) as [p' Hin]; [simpl in Hf; lia|].
    exists p'. apply in_or_app. left. rewrite app_nil_r. exact Hin.
Qed.

(** [hcpattern.match(h)] succeeds on every text of the grammar. *)
Lemma m_ap (l : ascii) (s : list ascii) p c :
  is_ap l = true -> m ap_class (l :: s) p c = [(s, S p, c)].
Proof. intros H. unfold is_ap in H. simpl. rewrite H. reflexivity. Qed.

Lemma hcpattern_accepts (h : string) :
  housecode h -> is_some (match_ hcpattern h) = true.
Proof.
  intros [l [ds [-> [Hl [Hne Hd]]]]].
  destruct ds as [|d ds']; [congruence|].
  simpl in Hd. apply andb_true_iff in Hd as [Hd1 Hd2].
  unfold match_.
  change (list_ascii_of_string (String l (String d ds')))
    with (l :: d :: list_ascii_of_string ds').
  rewrite <- all_digits_l_of in Hd2.
  destruct (star_digits _ Hd2 (S (length (list_ascii_of_string ds'))) 2 []
              ltac:(lia)) as [p' Hin].
  unfold hcpattern. cbn [m Nat.eqb flat_map].
  rewrite app_nil_r, m_ap by exact Hl. cbn [flat_map]. rewrite app_nil_r.
  unfold Plus. cbn [m]. rewrite m_digit by exact Hd1. cbn [flat_map].
  rewrite app_nil_r.
  match goal with |- context [flat_map ?f ?l] =>
    destruct (flat_map f l) as [|[[s0 p0] c0] rest] eqn:E end.
  - exfalso. refine (flat_map_In_nonempty _ _ _ Hin _ E). simpl. discriminate.
  - reflexivity.
Qed.

Lemma runs_execute cfg cmd hc rc :
  runs (fst (execute cfg cmd hc rc)) = [["heyu"; lower (heyucmd_of cfg cmd); lower hc]].
Proof. unfold execute. destruct (Z.eqb rc 0); reflexivity. Qed.

Lemma publishes_execute cfg cmd hc rc :
  publishes (fst (execute cfg cmd hc rc))
  = [(stattopic cfg ++ "/" ++ lower hc, upper cmd, true)].
Proof. unfold execute. destruct (Z.eqb rc 0); reflexivity. Qed.

(** The accepting branch of [on_message]. *)
Lemma on_message_accept cfg topic payload rc :
  is_on_off (upper payload) = true ->
  is_some (match_ hcpattern (upper (last_segment topic))) = true ->
  on_message cfg topic payload rc
  = Print ("Received: " ++ topic ++ " " ++ upper payload)
    :: Print ("Sending X10 command to homecode " ++ upper (last_segment topic))
    :: fst (execute cfg (upper payload) (upper (last_segment topic)) rc).
Proof. intros H1 H2. unfold on_message. rewrite H1, H2. reflexivity. Qed.

(** ** Monitor lines, in the shape heyu writes them *)

Definition nl : string := String newline "".

Definition line_addr_A1 : string :=
  "05/28 20:38:35  rcvi addr unit       1 : hu A1  (_no_alias_)" ++ nl.
Definition line_addr_B2 : string :=
  "05/28 20:38:40  rcvi addr unit       2 : hu B2  (_no_alias_)" ++ nl.
Definition line_func_On : string :=
  "05/28 20:38:36  rcvi func          On : hc A" ++ nl.
Definition line_func_Off : string :=
  "05/28 20:38:41  rcvi func         Off : hc B" ++ nl.
(** A line carrying both an address and a function report. *)
Definition line_both : string := "rcvi addr unit 1 : hu A1 rcvi func On :".

Lemma search_addr_A1 : option_map (group 1) (search rercviaddr line_addr_A1) = Some "A1".
Proof. vm_compute. reflexivity. Qed.
Lemma search_addr_B2 : option_map (group 1) (search rercviaddr line_addr_B2) = Some "B2".
Proof. vm_compute. reflexivity. Qed.
Lemma search_func_A1 : option_map (group 1) (search rercvifunc line_addr_A1) = None.
Proof. vm_compute. reflexivity. Qed.
Lemma search_func_B2 : option_map (group 1) (search rercvifunc line_addr_B2) = None.
Proof. vm_compute. reflexivity. Qed.
Lemma search_addr_On : option_map (group 1) (search rercviaddr line_func_On) = None.
Proof. vm_compute. reflexivity. Qed.
Lemma search_addr_Off : option_map (group 1) (search rercviaddr line_func_Off) = None.
Proof. vm_compute. reflexivity. Qed.
Lemma search_func_On : option_map (group 1) (search rercvifunc line_func_On) = Some "On".
Proof. vm_compute. reflexivity. Qed.
Lemma search_func_Off : option_map (group 1) (search rercvifunc line_func_Off) = Some "Off".
Proof. vm_compute. reflexivity. Qed.
Lemma search_addr_both : option_map (group 1) (search rercviaddr line_both) = Some "A1".
Proof. vm_compute. reflexivity. Qed.
Lemma search_func_both : option_map (group 1) (search rercvifunc line_both) = Some "On".
Proof. vm_compute. reflexivity. Qed.

(** [monitor_line] in terms of the two captured groups. *)
Lemma monitor_line_eq cfg h line :
  monitor_line cfg h line =
  (let h1 := match option_map (group 1) (search rercviaddr line) with
             | Some g => g
             | None => h
             end in
   match option_map (group 1) (search rercvifunc line) with
   | Some f => rcvifunc cfg h1 f
   | None => (h1, [])
   end).
Proof.
  unfold monitor_line, rcviaddr.
  destruct (search rercviaddr line), (search rercvifunc line); reflexivity.
Qed.

(** Run the monitor loop over the sample lines, one line at a time. *)
Ltac monitor_steps :=
  cbn [monitor_loop];
  repeat (rewrite monitor_line_eq;
          rewrite ?search_addr_A1, ?search_addr_B2, ?search_func_A1, ?search_func_B2,
                  ?search_addr_On, ?search_addr_Off, ?search_func_On, ?search_func_Off;
          cbn -[monitor_line search]).

Lemma publishes_app l1 l2 : publishes (l1 ++ l2) = (publishes l1 ++ publishes l2)%list.
Proof. unfold publishes. apply flat_map_app. Qed.

Definition count_addr (lines : list string) : nat :=
  length (filter (fun l => is_some (search rercviaddr l)) lines).

Definition slot_ind (h : string) : nat := if String.eqb h "" then 0 else 1.

Lemma monitor_line_count cfg h line :
  length (publishes (snd (monitor_line cfg h line))) + slot_ind (fst (monitor_line cfg h line))
  <= (if is_some (search rercviaddr line) then 1 else 0) + slot_ind h.
Proof.
  assert (Hle : forall x, slot_ind x <= 1)
    by (intros x; unfold slot_ind; destruct (String.eqb x ""); lia).
  assert (Hrf : forall a f, length (publishes (snd (rcvifunc cfg a f)))
                          + slot_ind (fst (rcvifunc cfg a f)) <= slot_ind a).
  { intros a f. unfold rcvifunc, slot_ind.
    destruct (String.eqb a "") eqn:E; cbn [fst snd publishes flat_map length app];
      [rewrite E|]; simpl; lia. }
  unfold monitor_line, rcviaddr.
  destruct (search rercviaddr line) as [g|], (search rercvifunc line) as [f|];
    cbn [fst snd is_some publishes flat_map length].
  - specialize (Hrf (group 1 g) (group 1 f)). specialize (Hle (group 1 g)). lia.
  - specialize (Hle (group 1 g)). lia.
  - specialize (Hrf h (group 1 f)). lia.
  - lia.
Qed.

Lemma monitor_loop_count cfg lines :
  forall h,
  length (publishes (snd (monitor_loop cfg h lines))) + slot_ind (fst (monitor_loop cfg h lines))
  <= count_addr lines + slot_ind h.
Proof.
  induction lines as [|l ls IH]; intros h; [simpl; lia|].
  cbn [monitor_loop].
  destruct (monitor_line cfg h l) as [h1 e1] eqn:E1.
  destruct (monitor_loop cfg h1 ls) as [h2 e2] eqn:E2. cbn [fst snd].
  pose proof (monitor_line_count cfg h l) as H1. rewrite E1 in H1. cbn [fst snd] in H1.
  pose proof (IH h1) as H2. rewrite E2 in H2. cbn [fst snd] in H2.
  rewrite publishes_app, length_app.
  unfold count_addr. cbn [filter].
  destruct (is_some (search rercviaddr l)); cbn [length] in *; fold (count_addr ls); lia.
Qed.

Definition popens (l : list effect) : list (list string) :=
  flat_map (fun e => match e with Popen a => [a] | _ => [] end) l.

Lemma popens_app l1 l2 : popens (l1 ++ l2) = (popens l1 ++ popens l2)%list.
Proof. unfold popens. apply flat_map_app. Qed.

Lemma popens_monitor_loop cfg lines :
  forall h, popens (snd (monitor_loop cfg h lines)) = [].
Proof.
  induction lines as [|l ls IH]; intros h; [reflexivity|].
  cbn [monitor_loop].
  destruct (monitor_line cfg h l) as [h1 e1] eqn:E1.
  destruct (monitor_loop cfg h1 ls) as [h2 e2] eqn:E2. cbn [snd].
  rewrite popens_app. specialize (IH h1). rewrite E2 in IH. cbn [snd] in IH.
  rewrite IH, app_nil_r.
  unfold monitor_line, rcviaddr, rcvifunc in E1.
  destruct (search rercviaddr l), (search rercvifunc l);
    repeat match goal with
           | H : context [if ?b then _ else _] |- _ => destruct b
           end;
    injection E1 as <- <-; reflexivity.
Qed.

Lemma publishes_flat_map {A} (f : A -> list effect) (l : list A) :
  publishes (flat_map f l) = flat_map (fun x => publishes (f x)) l.
Proof.
  induction l as [|x l IH]; [reflexivity|].
  cbn [flat_map]. rewrite publishes_app, IH. reflexivity.
Qed.

Lemma flat_map_single {A B} (f : A -> B) (l : list A) :
  flat_map (fun x => [f x]) l = map f l.
Proof. induction l as [|x l IH]; simpl; congruence. Qed.

(** The messages [on_connect] publishes: one retained descriptor per
    configured letter and unit, whatever the connection result code. *)
Lemma publishes_on_connect cfg rc :
  publishes (on_connect cfg rc)
  = flat_map (fun h => map (fun u => (discovery_topic cfg h u,
                                      json_dumps (discovery_config cfg h u), true)) units)
             (discoveryhouses cfg).
Proof.
  unfold on_connect. rewrite !publishes_app.
  replace (publishes (if rc =? 0 then [] else _)) with (@nil (string * string * bool))
    by (destruct (rc =? 0); reflexivity).
  cbn [app publishes flat_map]. fold publishes.
  rewrite publishes_flat_map. apply flat_map_ext. intros h.
  cbn [publishes flat_map app]. fold publishes.
  rewrite publishes_flat_map. apply flat_map_single.
Qed.

Fixpoint nodupb (l : list string) : bool :=
  match l with
  | [] => true
  | x :: r => negb (existsb (String.eqb x) r) && nodupb r
  end.

Lemma nodupb_NoDup (l : list string) : nodupb l = true -> NoDup l.
Proof.
  induction l as [|x r IH]; simpl; intros H; [constructor|].
  apply andb_true_iff in H as [H1 H2]. constructor; [|exact (IH H2)].
  intros Hin. apply negb_true_iff in H1.
  assert (existsb (String.eqb x) r = true)
    by (apply existsb_exists; exists x; split; [exact Hin|apply String.eqb_refl]).
  congruence.
Qed.

Lemma append_inj_l (p s1 s2 : string) : p ++ s1 = p ++ s2 -> s1 = s2.
Proof. induction p as [|c p IH]; simpl; [auto|intros E; injection E; auto]. Qed.

Lemma NoDup_map_append (p : string) (l : list string) :
  NoDup l -> NoDup (map (fun s => p ++ s) l).
Proof.
  induction 1 as [|x l Hx Hl IH]; simpl; constructor; [|exact IH].
  intros Hin. apply in_map_iff in Hin as [y [E Hy]].
  apply append_inj_l in E. subst. contradiction.
Qed.

End Facts.

(* ------------------------------------------------------------------ *)
(** * The properties *)

Module Claims.
Import Py Re X10 Facts.

(** The defaults of the configuration surface. *)
Definition cfg0 : config := {|
  cmdtopic := "x10/cmd"; stattopic := "x10/stat"; discoveryhouses := [];
  discoverytopic := "homeassistant"; cm17 := false |}.

Definition cfg0_cm17 : config := {|
  cmdtopic := "x10/cmd"; stattopic := "x10/stat"; discoveryhouses := [];
  discoverytopic := "homeassistant"; cm17 := true |}.

(** The controller argument that the command line of heyu receives for
    a command, by hardware mode (lower-case, as [execute] passes it). *)
Definition mode_action (cfg : config) (c : string) : string :=
  if cm17 cfg then (if String.eqb c "ON" then "fon" else "foff")
  else (if String.eqb c "ON" then "on" else "off").

(** C1 (as stated): the controller is invoked with the upper-case
    action ON in primary mode.  False: [execute] lower-cases the action,
    so topic x10/cmd/A1 with payload ON runs [heyu on a1]. *)
Lemma C1_action_is_lowercase :
  runs (on_message cfg0 "x10/cmd/A1" "ON" 0) = [["heyu"; "on"; "a1"]] /\
  runs (on_message cfg0 "x10/cmd/A1" "ON" 0) <> [["heyu"; "ON"; "a1"]].
Proof. split; [reflexivity | vm_compute; congruence]. Qed.

(** C1 (amended): for every housecode H of [[A-P][0-9]+], every command
    C in {ON, OFF} and any command prefix, the message (prefix/H, C)
    runs exactly one controller command [heyu action lowercase(H)] with
    action on/off (primary mode) or fon/foff (CM17 mode), and publishes
    exactly one retained message C to stat-prefix/lowercase(H). *)
Theorem C1_dispatch (cfg : config) (prefix h c : string) (rc : Z) :
  housecode h -> (c = "ON" \/ c = "OFF") ->
  runs (on_message cfg (prefix ++ "/" ++ h) c rc) = [["heyu"; mode_action cfg c; lower h]] /\
  publishes (on_message cfg (prefix ++ "/" ++ h) c rc)
  = [(stattopic cfg ++ "/" ++ lower h, c, true)].
Proof.
  intros Hh Hc.
  assert (Hu : upper c = c) by (destruct Hc; subst; reflexivity).
  assert (Ho : is_on_off (upper c) = true) by (destruct Hc; subst; reflexivity).
  assert (Hm : is_some (match_ hcpattern (upper (last_segment (prefix ++ "/" ++ h)))) = true).
  { rewrite last_segment_app by exact (housecode_no_slash h Hh).
    rewrite upper_housecode by exact Hh. exact (hcpattern_accepts h Hh). }
  rewrite (on_message_accept cfg _ _ rc Ho Hm).
  rewrite last_segment_app by exact (housecode_no_slash h Hh).
  rewrite (upper_housecode h Hh), Hu.
  cbn [runs publishes flat_map app].
  fold (runs (fst (execute cfg c h rc))). fold (publishes (fst (execute cfg c h rc))).
  rewrite runs_execute, publishes_execute, Hu. split; [|reflexivity].
  unfold mode_action, heyucmd_of.
  destruct Hc; subst; destruct (cm17 cfg); reflexivity.
Qed.

Lemma C1_dispatch_witness :
  housecode "A1" /\
  runs (on_message cfg0_cm17 ("x10/cmd" ++ "/" ++ "A1") "OFF" 0)
  = [["heyu"; mode_action cfg0_cm17 "OFF"; lower "A1"]] /\
  publishes (on_message cfg0_cm17 ("x10/cmd" ++ "/" ++ "A1") "OFF" 0)
  = [(stattopic cfg0_cm17 ++ "/" ++ lower "A1", "OFF", true)].
Proof.
  assert (H : housecode "A1").
  { exists "A"%char, "1". repeat split; try reflexivity. discriminate. }
  split; [exact H|]. apply (C1_dispatch cfg0_cm17 "x10/cmd" "A1" "OFF" 0 H). right; reflexivity.
Defined.

(** C2: whatever the validated command, when heyu exits with a non-zero
    code, [execute] still publishes, retained, the commanded value to
    stat-prefix/lowercase(housecode), exactly as it does on success; it
    logs the error and returns the exit code.  The same holds for the
    whole [on_message] handler. *)
Theorem C2_publish_despite_failure (cfg : config) (cmd hc : string) (rc : Z) :
  rc <> 0%Z ->
  snd (execute cfg cmd hc rc) = rc /\
  publishes (fst (execute cfg cmd hc rc))
  = [(stattopic cfg ++ "/" ++ lower hc, upper cmd, true)] /\
  publishes (fst (execute cfg cmd hc rc)) = publishes (fst (execute cfg cmd hc 0)) /\
  In (Print ("Error running heyu, return code: " ++ str_Z rc)) (fst (execute cfg cmd hc rc)) /\
  (forall topic payload,
     publishes (on_message cfg topic payload rc) = publishes (on_message cfg topic payload 0)).
Proof.
  intros Hrc.
  assert (E : Z.eqb rc 0 = false) by (apply Z.eqb_neq; exact Hrc).
  split; [reflexivity|].
  split; [apply publishes_execute|].
  split; [rewrite !publishes_execute; reflexivity|].
  split.
  - unfold execute. rewrite E. simpl. auto.
  - intros topic payload. unfold on_message.
    destruct (is_on_off (upper payload) && is_some (match_ hcpattern (upper (last_segment topic)))).
    + cbn [publishes flat_map app].
      fold (publishes (fst (execute cfg (upper payload) (upper (last_segment topic)) rc))).
      fold (publishes (fst (execute cfg (upper payload) (upper (last_segment topic)) 0))).
      rewrite !publishes_execute. reflexivity.
    + reflexivity.
Qed.

Lemma C2_publish_despite_failure_witness :
  (1 <> 0)%Z /\
  publishes (fst (execute cfg0 "ON" "A1" 1))
  = [(stattopic cfg0 ++ "/" ++ lower "A1", upper "ON", true)].
Proof.
  split; [discriminate|].
  exact (proj1 (proj2 (C2_publish_despite_failure cfg0 "ON" "A1" 1 ltac:(discriminate)))).
Defined.

(** C10: the unit number is not bounded: any letter A-P followed by any
    non-empty digit string (A0, A123, ...) in the upper-cased last topic
    segment, with payload ON/OFF, is dispatched to heyu, while discovery
    only announces the units 1 to 16. *)
Theorem C10_unbounded_unit (cfg : config) (topic payload : string) (rc : Z)
        (l : ascii) (ds : string) :
  upper (last_segment topic) = String l ds ->
  is_ap l = true -> ds <> "" -> all_digits ds = true ->
  is_on_off (upper payload) = true ->
  runs (on_message cfg topic payload rc)
  = [["heyu"; lower (heyucmd_of cfg (upper payload)); lower (String l ds)]] /\
  (forall u, In u units -> 1 <= u <= 16).
Proof.
  intros Hs Hl Hne Hd Ho. split.
  - assert (Hm : is_some (match_ hcpattern (upper (last_segment topic))) = true).
    { rewrite Hs. apply hcpattern_accepts. exists l, ds. auto. }
    rewrite (on_message_accept cfg topic payload rc Ho Hm).
    cbn [runs flat_map app]. fold (runs (fst (execute cfg (upper payload) (upper (last_segment topic)) rc))).
    rewrite runs_execute, Hs. reflexivity.
  - intros u Hu. unfold units in Hu. apply in_seq in Hu. lia.
Qed.

Lemma C10_unbounded_unit_witness :
  runs (on_message cfg0 "x10/cmd/a123" "on" 0)
  = [["heyu"; lower (heyucmd_of cfg0 (upper "on")); lower "A123"]] /\
  runs (on_message cfg0 "x10/cmd/A0" "OFF" 0) = [["heyu"; "off"; "a0"]] /\
  ~ In 123 units /\ ~ In 0 units.
Proof.
  split; [|split; [|split]].
  - exact (proj1 (C10_unbounded_unit cfg0 "x10/cmd/a123" "on" 0 "A"%char "123"
                    eq_refl eq_refl ltac:(discriminate) eq_refl eq_refl)).
  - exact (proj1 (C10_unbounded_unit cfg0 "x10/cmd/A0" "OFF" 0 "A"%char "0"
                    eq_refl eq_refl ltac:(discriminate) eq_refl eq_refl)).
  - unfold units. simpl. lia.
  - unfold units. simpl. lia.
Defined.

(** C3 (as stated): no line matches both the address pattern and the
    function pattern.  False: [line_both] matches both. *)
Lemma C3_patterns_overlap :
  ~ (forall line, search rercviaddr line = None \/ search rercvifunc line = None).
Proof.
  intros H. destruct (H line_both) as [E|E].
  - pose proof search_addr_both as A. rewrite E in A. discriminate.
  - pose proof search_func_both as A. rewrite E in A. discriminate.
Qed.

(** C3 (amended): every line is searched with both patterns; when a line
    matches both, its address is stored first and the function is then
    applied to it, so the line alone publishes the function for its own
    address and leaves the slot empty, whatever the slot held before. *)
Theorem C3_both_addr_first (cfg : config) (h line : string) (g1 g2 : caps) :
  search rercviaddr line = Some g1 -> search rercvifunc line = Some g2 ->
  group 1 g1 <> "" ->
  monitor_line cfg h line
  = ("", [Print ("Remote status change, publishing stat update: " ++ stattopic cfg
                 ++ "/" ++ lower (group 1 g1) ++ " is now " ++ upper (group 1 g2));
          Publish (stattopic cfg ++ "/" ++ lower (group 1 g1)) (upper (group 1 g2)) true]).
Proof.
  intros E1 E2 Hne. unfold monitor_line, rcviaddr, rcvifunc. rewrite E1, E2.
  apply String.eqb_neq in Hne. rewrite Hne. reflexivity.
Qed.

Lemma C3_both_addr_first_witness :
  exists g1 g2, search rercviaddr line_both = Some g1 /\ search rercvifunc line_both = Some g2 /\
  monitor_line cfg0 "B2" line_both
  = ("", [Print ("Remote status change, publishing stat update: " ++ stattopic cfg0
                 ++ "/" ++ lower (group 1 g1) ++ " is now " ++ upper (group 1 g2));
          Publish (stattopic cfg0 ++ "/" ++ lower (group 1 g1)) (upper (group 1 g2)) true]).
Proof.
  destruct (search rercviaddr line_both) as [g1|] eqn:E1;
    [|pose proof search_addr_both as A; rewrite E1 in A; discriminate].
  destruct (search rercvifunc line_both) as [g2|] eqn:E2;
    [|pose proof search_func_both as A; rewrite E2 in A; discriminate].
  exists g1, g2. split; [reflexivity|]. split; [reflexivity|].
  apply (C3_both_addr_first cfg0 "B2" line_both g1 g2 E1 E2).
  pose proof search_addr_both as A. rewrite E1 in A. cbn [option_map] in A.
  injection A as ->. discriminate.
Defined.

(** C4: a stat update (an event) only comes out of an address line
    followed by a function line: address line A1 then an On function
    line publishes exactly one event, ON for a1; the function line alone
    (or any line without an address, from the empty slot) publishes
    nothing and leaves the slot empty; and over any line sequence there
    are never more events than address lines. *)
Theorem C4_events_need_address (cfg : config) :
  publishes (snd (monitor_loop cfg "" [line_addr_A1; line_func_On]))
  = [(stattopic cfg ++ "/a1", "ON", true)] /\
  monitor_loop cfg "" [line_func_On] = ("", []) /\
  (forall line, search rercviaddr line = None -> monitor_line cfg "" line = ("", [])) /\
  (forall lines, length (publishes (snd (monitor_loop cfg "" lines))) <= count_addr lines).
Proof.
  split; [|split; [|split]].
  - monitor_steps. reflexivity.
  - monitor_steps. reflexivity.
  - intros line E. unfold monitor_line, rcvifunc. rewrite E.
    destruct (search rercvifunc line); reflexivity.
  - intros lines. pose proof (monitor_loop_count cfg lines "") as H.
    unfold slot_ind at 2 in H. simpl in H. lia.
Qed.

Lemma C4_events_need_address_witness :
  monitor_line cfg0 "" line_func_Off = ("", []) /\
  length (publishes (snd (monitor_loop cfg0 "" [line_func_On; line_func_Off])))
  <= count_addr [line_func_On; line_func_Off].
Proof.
  split.
  - apply (proj1 (proj2 (proj2 (C4_events_need_address cfg0))) line_func_Off).
    pose proof search_addr_Off as A.
    destruct (search rercviaddr line_func_Off); [discriminate|reflexivity].
  - apply (proj2 (proj2 (proj2 (C4_events_need_address cfg0)))).
Defined.

(** C7 (as stated): the monitor signals a fatal failure for every
    return code.  False: on return code 0 the generator just ends and
    the program finishes normally. *)
Definition fatal (o : outcome) : Prop := exists e, o = Raised e.

Lemma C7_zero_exit_not_fatal :
  snd (main_monitor cfg0 [] 0) = Finished /\
  ~ (forall rc, fatal (snd (main_monitor cfg0 [] rc))).
Proof.
  split; [reflexivity|].
  intros H. destruct (H 0%Z) as [e E]. discriminate.
Qed.

(** C7 (amended): heyu monitor is started once and never restarted;
    after its lines end, a non-zero return code raises an exception that
    nothing catches (fatal), while return code 0 ends the loop normally. *)
Theorem C7_nonzero_exit_fatal (cfg : config) (lines : list string) (rc : Z) :
  snd (main_monitor cfg lines rc) = (if Z.eqb rc 0 then Finished else Raised "NameError") /\
  (rc <> 0%Z <-> fatal (snd (main_monitor cfg lines rc))) /\
  popens (fst (main_monitor cfg lines rc)) = [["heyu"; "monitor"]].
Proof.
  split; [reflexivity|]. split.
  - unfold main_monitor, monitor_end, fatal. cbn [snd].
    destruct (Z.eqb rc 0) eqn:E.
    + apply Z.eqb_eq in E. split; [contradiction|intros [e H]; discriminate].
    + apply Z.eqb_neq in E. split; [intros _; eauto|intros _; exact E].
  - unfold main_monitor. cbn [fst popens flat_map app].
    fold (popens (snd (monitor_loop cfg "" lines))).
    rewrite popens_monitor_loop. reflexivity.
Qed.

(** C6 (code bug): a topic whose last segment is A1 followed by a
    newline does not match [[A-P][0-9]+], yet [hcpattern.match] accepts
    it, because [$] also matches before a final newline; heyu is run
    and the state is published for that housecode. *)
Lemma C6_trailing_newline_accepted :
  upper (last_segment ("x10/cmd/A1" ++ nl)) = "A1" ++ nl /\
  ~ housecode ("A1" ++ nl) /\
  runs (on_message cfg0 ("x10/cmd/A1" ++ nl) "ON" 0) = [["heyu"; "on"; "a1" ++ nl]] /\
  publishes (on_message cfg0 ("x10/cmd/A1" ++ nl) "ON" 0) = [("x10/stat/a1" ++ nl, "ON", true)].
Proof.
  split; [reflexivity|]. split; [|split; vm_compute; reflexivity].
  intros [l [ds [E [_ [_ Hd]]]]]. injection E as <- <-. discriminate.
Qed.

(** C8: with the letters A and B configured, [on_connect] publishes
    exactly 32 messages, pairwise distinct, with pairwise distinct
    topics, all retained, one per letter and unit 1..16 in that order;
    each goes to <discovery-prefix>/switch/x10mqtt/x10_<housecode
    lower-cased>/config with the JSON dump of a dict whose keys are
    exactly name, state_topic, command_topic and unique_id, and whose
    unique_id contains the housecode (letter, lower-cased, and unit). *)
Theorem C8_discovery_AB (cfg : config) (rc : nat) :
  discoveryhouses cfg = ["A"; "B"] ->
  length (publishes (on_connect cfg rc)) = 32 /\
  NoDup (publishes (on_connect cfg rc)) /\
  NoDup (map (fun '(t, _, _) => t) (publishes (on_connect cfg rc))) /\
  Forall (fun '(_, _, r) => r = true) (publishes (on_connect cfg rc)) /\
  publishes (on_connect cfg rc)
  = flat_map (fun h => map (fun u => (discovery_topic cfg h u,
                                      json_dumps (discovery_config cfg h u), true)) units)
             ["A"; "B"] /\
  (forall h u, In h ["A"; "B"] -> In u units ->
     discovery_topic cfg h u
     = discoverytopic cfg ++ "/switch/" ++ "x10mqtt" ++ "/x10_" ++ lower h ++ str_nat u ++ "/config" /\
     map fst (discovery_config cfg h u) = ["name"; "state_topic"; "command_topic"; "unique_id"] /\
     exists pre, In ("unique_id", pre ++ lower h ++ str_nat u) (discovery_config cfg h u)).
Proof.
  intros Hh. rewrite publishes_on_connect, Hh.
  assert (Ht : NoDup (map (fun '(t, _, _) => t)
             (flat_map (fun h => map (fun u => (discovery_topic cfg h u,
                          json_dumps (discovery_config cfg h u), true)) units) ["A"; "B"]))).
  { change (NoDup (map (fun s => discoverytopic cfg ++ s)
      (flat_map (fun h => map (fun u => "/switch/x10mqtt/x10_" ++ lower h ++ str_nat u
                                        ++ "/config") units) ["A"; "B"]))).
    apply NoDup_map_append, nodupb_NoDup. vm_compute. reflexivity. }
  split; [reflexivity|].
  split; [exact (NoDup_map_inv _ _ Ht)|].
  split; [exact Ht|].
  split.
  - apply Forall_forall. intros [[t pl] r] Hin.
    apply in_flat_map in Hin as [h [_ Hin]]. apply in_map_iff in Hin as [u [E _]].
    injection E as _ _ <-. reflexivity.
  - split; [reflexivity|].
    intros h u _ _. split; [reflexivity|]. split; [reflexivity|].
    exists "x10mqtt_x10_". simpl. auto 6.
Qed.

Definition cfg_AB : config := {|
  cmdtopic := "x10/cmd"; stattopic := "x10/stat"; discoveryhouses := discovery_houses_of "ab";
  discoverytopic := "homeassistant"; cm17 := false |}.

Lemma C8_discovery_AB_witness :
  discoveryhouses cfg_AB = ["A"; "B"] /\ length (publishes (on_connect cfg_AB 0)) = 32.
Proof.
  split; [reflexivity|].
  exact (proj1 (C8_discovery_AB cfg_AB 0 eq_refl)).
Defined.

(** C9: the announcements depend on the configuration only: two
    connections (whatever their result codes) publish the same topics
    and character-identical payloads, and so does any configuration that
    agrees on the topic prefixes and letters (the CM17 flag aside);
    connecting twice publishes the same list twice. *)
Theorem C9_announce_deterministic (cfg cfg' : config) (rc1 rc2 : nat) :
  cmdtopic cfg' = cmdtopic cfg -> stattopic cfg' = stattopic cfg ->
  discoverytopic cfg' = discoverytopic cfg -> discoveryhouses cfg' = discoveryhouses cfg ->
  publishes (on_connect cfg' rc2) = publishes (on_connect cfg rc1) /\
  publishes (on_connect cfg rc1 ++ on_connect cfg rc2)
  = (publishes (on_connect cfg rc1) ++ publishes (on_connect cfg rc1))%list.
Proof.
  intros H1 H2 H3 H4.
  rewrite publishes_app, !publishes_on_connect.
  unfold discovery_topic, discovery_config. rewrite H1, H2, H3, H4.
  split; reflexivity.
Qed.

Lemma C9_announce_deterministic_witness :
  publishes (on_connect {| cmdtopic := "x10/cmd"; stattopic := "x10/stat";
                           discoveryhouses := ["A"; "B"]; discoverytopic := "homeassistant";
                           cm17 := true |} 1)
  = publishes (on_connect cfg_AB 0).
Proof.
  exact (proj1 (C9_announce_deterministic cfg_AB _ 0 1 eq_refl eq_refl eq_refl eq_refl)).
Defined.

Lemma C7_nonzero_exit_fatal_witness :
  fatal (snd (main_monitor cfg0 [line_addr_A1; line_func_On] 1)) /\
  popens (fst (main_monitor cfg0 [line_addr_A1; line_func_On] 1)) = [["heyu"; "monitor"]].
Proof.
  split.
  - apply (proj1 (proj2 (C7_nonzero_exit_fatal cfg0 [line_addr_A1; line_func_On] 1))).
    discriminate.
  - exact (proj2 (proj2 (C7_nonzero_exit_fatal cfg0 [line_addr_A1; line_func_On] 1))).
Defined.

End Claims.

(* ------------------------------------------------------------------ *)
(** * What the patterns capture *)

Module ReFacts.
Import Py Re.

Fixpoint no_groups (r : re) : bool :=
  match r with
  | Alt r1 r2 | Cat r1 r2 => no_groups r1 && no_groups r2
  | Star r1 => no_groups r1
  | Group _ _ => false
  | _ => true
  end.

Lemma m_cat r1 r2 s p c x :
  In x (m (Cat r1 r2) s p c) ->
  exists s1 p1 c1, In (s1, p1, c1) (m r1 s p c) /\ In x (m r2 s1 p1 c1).
Proof.
  cbn [m]. intros H. apply in_flat_map in H as [[[s1 p1] c1] [H1 H2]].
  exists s1, p1, c1. auto.
Qed.

Lemma star_iter_inv (mr : list ascii -> nat -> caps -> list mstate)
      (P : list ascii -> nat -> caps -> mstate -> Prop) :
  (forall s p c, P s p c (s, p, c)) ->
  (forall s p c x y, In y (mr s p c) -> P (fst (fst y)) (snd (fst y)) (snd y) x -> P s p c x) ->
  forall f s p c x, In x (star_iter mr f s p c) -> P s p c x.
Proof.
  intros Hrefl Hstep f. induction f as [|f IH]; intros s p c x H.
  - destruct H as [<-|[]]. apply Hrefl.
  - cbn [star_iter] in H. apply in_app_or in H as [H|[<-|[]]]; [|apply Hrefl].
    apply in_flat_map in H as [[[s1 p1] c1] [H1 H2]].
    destruct (length s1 <? length s); [|destruct H2].
    apply (Hstep s p c x (s1, p1, c1) H1). exact (IH _ _ _ _ H2).
Qed.

(** Every match consumes a prefix of the input and advances the
    position by its length. *)
Definition consumes (s : list ascii) (p : nat) (x : mstate) : Prop :=
  exists pre, s = (pre ++ fst (fst x))%list /\ snd (fst x) = p + length pre.

Lemma m_consumes r : forall s p c x, In x (m r s p c) -> consumes s p x.
Proof.
  induction r as [| ch | rgs | | r1 IH1 r2 IH2 | r1 IH1 r2 IH2 | r1 IH | n r1 IH | |];
    intros s p c x H; cbn [m] in H.
  - destruct H as [<-|[]]. exists []. simpl. split; [reflexivity|lia].
  - destruct s as [|a s]; [destruct H|]. destruct (Ascii.eqb a ch); [|destruct H].
    destruct H as [<-|[]]. exists [a]. simpl. split; [reflexivity|lia].
  - destruct s as [|a s]; [destruct H|]. destruct (existsb (in_range a) rgs); [|destruct H].
    destruct H as [<-|[]]. exists [a]. simpl. split; [reflexivity|lia].
  - destruct s as [|a s]; [destruct H|]. destruct (Ascii.eqb a newline); [destruct H|].
    destruct H as [<-|[]]. exists [a]. simpl. split; [reflexivity|lia].
  - apply in_app_or in H as [H|H]; eauto.
  - apply in_flat_map in H as [[[s1 p1] c1] [H1 H2]].
    destruct (IH1 _ _ _ _ H1) as [pre1 [E1 F1]]. destruct (IH2 _ _ _ _ H2) as [pre2 [E2 F2]].
    cbn [fst snd] in *. exists (pre1 ++ pre2)%list.
    rewrite E1, E2, app_assoc, length_app. split; [reflexivity|lia].
  - revert H. apply (star_iter_inv (m r1) (fun s p _ x => consumes s p x)).
    + intros s0 p0 c0. exists []. simpl. split; [reflexivity|lia].
    + intros s0 p0 c0 x0 y Hy [pre2 [E2 F2]].
      destruct (IH _ _ _ _ Hy) as [pre1 [E1 F1]].
      exists (pre1 ++ pre2)%list. rewrite E1, E2, app_assoc, length_app. split; [reflexivity|lia].
  - apply in_map_iff in H as [[[s1 p1] c1] [E H]]. subst x.
    destruct (IH _ _ _ _ H) as [pre [E1 F1]]. exists pre. exact (conj E1 F1).
  - destruct (p =? 0); [|destruct H]. destruct H as [<-|[]].
    exists []. simpl. split; [reflexivity|lia].
  - destruct s as [|a [|b s]].
    + destruct H as [<-|[]]. exists []. simpl. split; [reflexivity|lia].
    + destruct (Ascii.eqb a newline); [|destruct H]. destruct H as [<-|[]].
      exists []. simpl. split; [reflexivity|lia].
    + destruct H.
Qed.

(** A pattern without groups leaves the captures alone. *)
Lemma m_no_groups r : no_groups r = true ->
  forall s p c x, In x (m r s p c) -> snd x = c.
Proof.
  induction r as [| ch | rgs | | r1 IH1 r2 IH2 | r1 IH1 r2 IH2 | r1 IH | n r1 IH | |];
    cbn [no_groups]; intros Hg s p c x H; cbn [m] in H;
    try (apply andb_true_iff in Hg as [G1 G2]).
  - destruct H as [<-|[]]. reflexivity.
  - destruct s as [|a s]; [destruct H|]. destruct (Ascii.eqb a ch); [|destruct H].
    destruct H as [<-|[]]. reflexivity.
  - destruct s as [|a s]; [destruct H|]. destruct (existsb (in_range a) rgs); [|destruct H].
    destruct H as [<-|[]]. reflexivity.
  - destruct s as [|a s]; [destruct H|]. destruct (Ascii.eqb a newline); [destruct H|].
    destruct H as [<-|[]]. reflexivity.
  - apply in_app_or in H as [H|H]; eauto.
  - apply in_flat_map in H as [[[s1 p1] c1] [H1 H2]].
    rewrite (IH2 G2 _ _ _ _ H2). exact (IH1 G1 _ _ _ _ H1).
  - revert H. apply (star_iter_inv (m r1) (fun _ _ c x => snd x = c)).
    + reflexivity.
    + intros s0 p0 c0 x0 y Hy E. rewrite E. exact (IH Hg _ _ _ _ Hy).
  - discriminate.
  - destruct (p =? 0); [|destruct H]. destruct H as [<-|[]]. reflexivity.
  - destruct s as [|a [|b s]].
    + destruct H as [<-|[]]. reflexivity.
    + destruct (Ascii.eqb a newline); [|destruct H]. destruct H as [<-|[]]. reflexivity.
    + destruct H.
Qed.

Lemma no_groups_Lit w : no_groups (Lit w) = true.
Proof.
  induction w as [|a r IH]; [reflexivity|].
  destruct r as [|b r']; [reflexivity|]. cbn [Lit no_groups]. exact IH.
Qed.

Lemma m_chr ch s p c x :
  In x (m (Chr ch) s p c) -> exists s', s = ch :: s' /\ x = (s', S p, c).
Proof.
  cbn [m]. destruct s as [|a s]; [intros []|].
  destruct (Ascii.eqb a ch) eqn:E; [|intros []].
  intros [<-|[]]. apply Ascii.eqb_eq in E. subst. eauto.
Qed.

Lemma m_class rgs s p c x :
  In x (m (ClassR rgs) s p c) ->
  exists a, s = a :: fst (fst x) /\ existsb (in_range a) rgs = true /\ snd x = c.
Proof.
  cbn [m]. destruct s as [|a s]; [intros []|].
  destruct (existsb (in_range a) rgs) eqn:E; [|intros []].
  intros [<-|[]]. eauto.
Qed.

Lemma m_lit w : forall s p c x,
  In x (m (Lit w) s p c) -> s = (list_ascii_of_string w ++ fst (fst x))%list /\ snd x = c.
Proof.
  induction w as [|a r IH]; intros s p c x H.
  - destruct H as [<-|[]]. auto.
  - destruct r as [|b r'].
    + apply m_chr in H as [s' [-> ->]]. auto.
    + apply m_cat in H as [s1 [p1 [c1 [H1 H2]]]].
      apply m_chr in H1 as [s' [-> E]]. injection E as -> -> ->.
      destruct (IH _ _ _ _ H2) as [E1 E2]. rewrite E1. auto.
Qed.

Lemma star_class rgs : forall f s p c x,
  In x (star_iter (m (ClassR rgs)) f s p c) ->
  exists pre, s = (pre ++ fst (fst x))%list /\
              Forall (fun a => existsb (in_range a) rgs = true) pre /\ snd x = c.
Proof.
  apply (star_iter_inv (m (ClassR rgs))
           (fun s _ c x => exists pre, s = (pre ++ fst (fst x))%list /\
              Forall (fun a => existsb (in_range a) rgs = true) pre /\ snd x = c)).
  - intros s p c. exists []. auto.
  - intros s p c x y Hy [pre [E [F G]]].
    destruct (m_class _ _ _ _ _ Hy) as [a [Ea [Ha Hc]]].
    exists (a :: pre). rewrite Ea, E, <- Hc, G. auto.
Qed.

Lemma firstn_app_length (w t : list ascii) : firstn (length w) (w ++ t) = w.
Proof. induction w as [|a w IH]; simpl; congruence. Qed.

(** A group records exactly the text its body consumed. *)
Lemma m_group n r s p c x :
  In x (m (Group n r) s p c) ->
  exists pre y, In y (m r s p c) /\ s = (pre ++ fst (fst y))%list /\
                x = (fst (fst y), snd (fst y), (n, pre) :: snd y).
Proof.
  cbn [m]. intros H. apply in_map_iff in H as [[[s1 p1] c1] [E H]]. subst x.
  destruct (m_consumes _ _ _ _ _ H) as [pre [E1 F1]]. cbn [fst snd] in *.
  exists pre, (s1, p1, c1). split; [exact H|]. split; [exact E1|].
  rewrite F1, E1. replace (p + length pre - p) with (length pre) by lia.
  rewrite firstn_app_length. reflexivity.
Qed.

Lemma app_inv_tail_ascii (a b t : list ascii) : (a ++ t)%list = (b ++ t)%list -> a = b.
Proof. apply app_inv_tail. Qed.

End ReFacts.

Module PatFacts.
Import Py Re X10 Facts ReFacts.

Lemma func_group_caps s p x :
  In x (m (Group 1 (Alt (Lit "On") (Lit "Off"))) s p []) ->
  exists v, snd x = [(1, v)] /\
            (v = list_ascii_of_string "On" \/ v = list_ascii_of_string "Off").
Proof.
  intros H. apply m_group in H as [pre [y [Hy [Es ->]]]].
  cbn [m] in Hy. cbn [snd].
  apply in_app_or in Hy as [Hy|Hy]; apply m_lit in Hy as [E Hc];
    rewrite Es in E; apply app_inv_tail in E; subst; rewrite Hc; eauto.
Qed.

Lemma rercvifunc_caps s p x :
  In x (m rercvifunc s p []) ->
  exists v, snd x = [(1, v)] /\
            (v = list_ascii_of_string "On" \/ v = list_ascii_of_string "Off").
Proof.
  unfold rercvifunc. intros H.
  apply m_cat in H as [s1 [p1 [c1 [H1 H]]]].
  pose proof (m_no_groups prefixes eq_refl _ _ _ _ H1) as E1. cbn [snd] in E1. subst c1.
  apply m_cat in H as [s2 [p2 [c2 [H2 H]]]].
  pose proof (m_no_groups _ (no_groups_Lit _) _ _ _ _ H2) as E2. cbn [snd] in E2. subst c2.
  apply m_cat in H as [s3 [p3 [c3 [H3 H]]]].
  pose proof (m_no_groups (Star Any) eq_refl _ _ _ _ H3) as E3. cbn [snd] in E3. subst c3.
  apply m_cat in H as [s4 [p4 [c4 [H4 H]]]].
  destruct (func_group_caps _ _ _ H4) as [v [E4 Hv]]. cbn [snd] in E4. subst c4.
  rewrite (m_no_groups _ (no_groups_Lit _) _ _ _ _ H). eauto.
Qed.

Lemma addr_group_caps s p x :
  In x (m (Group 1 (Cat ap_class (Plus digit_class))) s p []) ->
  exists a ds, snd x = [(1, a :: ds)] /\ is_ap a = true /\ ds <> [] /\
               all_digits_l ds = true.
Proof.
  intros H. apply m_group in H as [pre [y [Hy [Es ->]]]].
  apply m_cat in Hy as [s1 [p1 [c1 [H1 Hy]]]].
  destruct (m_class _ _ _ _ _ H1) as [a [Ea [Ha Hc1]]]. cbn [fst snd] in Ea, Hc1. subst c1. rewrite Ea in Es. clear Ea.
  unfold Plus in Hy. apply m_cat in Hy as [s2 [p2 [c2 [H2 Hy]]]].
  destruct (m_class _ _ _ _ _ H2) as [d [Ed [Hd Hc2]]]. cbn [fst snd] in Ed, Hc2. subst c2. rewrite Ed in Es. clear Ed.
  cbn [m] in Hy. apply star_class in Hy as [ds [Eds [Fds Hc]]]. rewrite Eds in Es. clear Eds.
  change ((a :: d :: ds ++ fst (fst y)))%list with ((a :: d :: ds) ++ fst (fst y))%list in Es.
  apply app_inv_tail in Es. subst pre.
  exists a, (d :: ds). cbn [snd]. rewrite Hc.
  cbn [existsb] in Ha, Hd. rewrite orb_false_r in Ha, Hd.
  split; [reflexivity|]. split; [exact Ha|]. split; [discriminate|].
  cbn [all_digits_l]. unfold is_digit. rewrite Hd. cbn [andb].
  clear - Fds. induction Fds as [|b l Hb _ IH]; [reflexivity|].
  cbn [all_digits_l existsb] in *. rewrite orb_false_r in Hb. unfold is_digit. rewrite Hb, IH.
  reflexivity.
Qed.

Lemma rercviaddr_caps s p x :
  In x (m rercviaddr s p []) ->
  exists a ds, snd x = [(1, a :: ds)] /\ is_ap a = true /\ ds <> [] /\
               all_digits_l ds = true.
Proof.
  unfold rercviaddr. intros H.
  apply m_cat in H as [s1 [p1 [c1 [H1 H]]]].
  pose proof (m_no_groups prefixes eq_refl _ _ _ _ H1) as E1. cbn [snd] in E1. subst c1.
  apply m_cat in H as [s2 [p2 [c2 [H2 H]]]].
  pose proof (m_no_groups _ (no_groups_Lit _) _ _ _ _ H2) as E2. cbn [snd] in E2. subst c2.
  apply m_cat in H as [s3 [p3 [c3 [H3 H]]]].
  pose proof (m_no_groups (Plus Any) eq_refl _ _ _ _ H3) as E3. cbn [snd] in E3. subst c3.
  apply m_cat in H as [s4 [p4 [c4 [H4 H]]]].
  pose proof (m_no_groups _ (no_groups_Lit _) _ _ _ _ H4) as E4. cbn [snd] in E4. subst c4.
  exact (addr_group_caps _ _ _ H).
Qed.

Lemma search_inv r s g :
  search r s = Some g -> exists s0 p0 x, In x (m r s0 p0 []) /\ snd x = g.
Proof.
  unfold search. generalize 0. generalize (list_ascii_of_string s) as l.
  induction l as [|a l IH]; intros p H; cbn [search_from] in H;
    destruct (m r _ p []) as [|[[s1 p1] c1] rest] eqn:E; cbn [first_caps] in H.
  - discriminate.
  - injection H as <-. exists [], p, (s1, p1, c1). rewrite E. cbn. auto.
  - exact (IH (S p) H).
  - injection H as <-. exists (a :: l), p, (s1, p1, c1). rewrite E. cbn. auto.
Qed.

Lemma all_digits_of_list (l : list ascii) : all_digits (string_of_list_ascii l) = all_digits_l l.
Proof. induction l as [|a l IH]; simpl; congruence. Qed.

(** The function captured by [rercvifunc] is On or Off. *)
Lemma search_func_on_off line g :
  search rercvifunc line = Some g -> group 1 g = "On" \/ group 1 g = "Off".
Proof.
  intros H. destruct (search_inv _ _ _ H) as [s0 [p0 [x [Hx <-]]]].
  destruct (rercvifunc_caps _ _ _ Hx) as [v [-> [->| ->]]]; [left|right]; reflexivity.
Qed.

(** The address captured by [rercviaddr] is a housecode of [[A-P][0-9]+]. *)
Lemma search_addr_housecode line g :
  search rercviaddr line = Some g -> housecode (group 1 g).
Proof.
  intros H. destruct (search_inv _ _ _ H) as [s0 [p0 [x [Hx <-]]]].
  destruct (rercviaddr_caps _ _ _ Hx) as [a [ds [-> [Ha [Hne Hd]]]]].
  exists a, (string_of_list_ascii ds). unfold group. cbn [lookup_cap Nat.eqb].
  split; [reflexivity|]. split; [exact Ha|]. split.
  - destruct ds; [contradiction|discriminate].
  - rewrite all_digits_of_list. exact Hd.
Qed.

End PatFacts.

(* ------------------------------------------------------------------ *)
(** * Further properties of the gateway *)

Module MonitorClaims.
Import Py Re X10 Facts PatFacts Claims.

Lemma housecode_nonempty h : housecode h -> h <> "".
Proof. intros [l [ds [-> _]]]. discriminate. Qed.

(** C5: the pending-address slot is last-write-wins.  For every slot
    value and every line that matches the address pattern but not the
    function pattern, the line overwrites the slot with its housecode
    and emits nothing.  Hence, from any slot, an address line, a second
    address line and then a function-only line give exactly one event,
    for the second housecode, and leave the slot empty: the first
    address is discarded without an event.  On the heyu lines
    [hu A1], [hu B2], [func Off] that event is (b2, OFF). *)
Theorem C5_last_address_wins (cfg : config) :
  (forall h line g,
     search rercviaddr line = Some g -> search rercvifunc line = None ->
     monitor_line cfg h line = (group 1 g, [])) /\
  (forall h l1 l2 l3 g1 g2 f,
     search rercviaddr l1 = Some g1 -> search rercvifunc l1 = None ->
     search rercviaddr l2 = Some g2 -> search rercvifunc l2 = None ->
     search rercviaddr l3 = None -> search rercvifunc l3 = Some f ->
     fst (monitor_loop cfg h [l1; l2; l3]) = "" /\
     publishes (snd (monitor_loop cfg h [l1; l2; l3]))
     = [(stattopic cfg ++ "/" ++ lower (group 1 g2), upper (group 1 f), true)]) /\
  monitor_loop cfg "" [line_addr_A1; line_addr_B2] = ("B2", []) /\
  publishes (snd (monitor_loop cfg "" [line_addr_A1; line_addr_B2; line_func_Off]))
  = [(stattopic cfg ++ "/b2", "OFF", true)] /\
  fst (monitor_loop cfg "" [line_addr_A1; line_addr_B2; line_func_Off]) = "".
Proof.
  assert (Hov : forall h line g,
     search rercviaddr line = Some g -> search rercvifunc line = None ->
     monitor_line cfg h line = (group 1 g, [])).
  { intros h line g Ha Hf. unfold monitor_line. rewrite Ha, Hf. reflexivity. }
  split; [exact Hov|]. split.
  - intros h l1 l2 l3 g1 g2 f A1 F1 A2 F2 A3 F3.
    cbn [monitor_loop]. rewrite (Hov h l1 g1 A1 F1), (Hov _ l2 g2 A2 F2).
    assert (Hne : String.eqb (group 1 g2) "" = false).
    { apply String.eqb_neq, housecode_nonempty, (search_addr_housecode l2 g2 A2). }
    unfold monitor_line. rewrite A3, F3. unfold rcvifunc. rewrite Hne.
    split; reflexivity.
  - split; [|split]; monitor_steps; reflexivity.
Qed.

Lemma C5_last_address_wins_witness :
  monitor_line cfg0 "A1" line_addr_B2 = ("B2", []).
Proof.
  pose proof search_addr_B2 as EB. pose proof search_func_B2 as FB.
  destruct (search rercviaddr line_addr_B2) as [g|] eqn:E; [|discriminate].
  destruct (search rercvifunc line_addr_B2) eqn:F; [discriminate|].
  injection EB as EB.
  rewrite (proj1 (C5_last_address_wins cfg0) "A1" line_addr_B2 g E F), EB.
  reflexivity.
Defined.

End MonitorClaims.

Module Extra.
Import Py Re X10 Facts ReFacts PatFacts Claims.

Definition slot_ok (h : string) : Prop := h = "" \/ housecode h.

Definition stat_msg_ok (cfg : config) (m : string * string * bool) : Prop :=
  let '(t, pl, r) := m in
  r = true /\ (pl = "ON" \/ pl = "OFF") /\
  exists x, housecode x /\ t = stattopic cfg ++ "/" ++ lower x.

Lemma monitor_line_ok cfg h line :
  slot_ok h ->
  slot_ok (fst (monitor_line cfg h line)) /\
  Forall (stat_msg_ok cfg) (publishes (snd (monitor_line cfg h line))).
Proof.
  intros Hh.
  assert (H1 : slot_ok (match search rercviaddr line with
                        | Some g => rcviaddr (group 1 g) | None => h end)).
  { destruct (search rercviaddr line) as [g|] eqn:E; [|exact Hh].
    right. exact (search_addr_housecode _ _ E). }
  unfold monitor_line.
  destruct (search rercvifunc line) as [f|] eqn:Ef; [|split; [exact H1|constructor]].
  revert H1. generalize (match search rercviaddr line with
                         | Some g => rcviaddr (group 1 g) | None => h end) as h1.
  intros h1 H1. unfold rcvifunc.
  destruct (String.eqb h1 "") eqn:E0; [split; [exact H1|constructor]|].
  split; [left; reflexivity|].
  apply String.eqb_neq in E0.
  destruct H1 as [H1|H1]; [contradiction|].
  cbn [publishes flat_map app snd]. constructor; [|constructor].
  split; [reflexivity|]. split.
  - destruct (search_func_on_off _ _ Ef) as [-> | ->]; [left|right]; reflexivity.
  - exists h1. auto.
Qed.

(** X1: from the start of the program, every message the monitor loop
    publishes, over any sequence of monitor lines, is retained, has
    payload ON or OFF, and goes to stat-prefix/lowercase(x) for a
    housecode x of the grammar [[A-P][0-9]+]. *)
Theorem monitor_publishes_valid (cfg : config) (lines : list string) :
  Forall (stat_msg_ok cfg) (publishes (snd (monitor_loop cfg "" lines))).
Proof.
  assert (G : forall lines h, slot_ok h ->
            slot_ok (fst (monitor_loop cfg h lines)) /\
            Forall (stat_msg_ok cfg) (publishes (snd (monitor_loop cfg h lines)))).
  { induction lines0 as [|l ls IH]; intros h Hh; [split; [exact Hh|constructor]|].
    cbn [monitor_loop].
    destruct (monitor_line cfg h l) as [h1 e1] eqn:E1.
    destruct (monitor_line_ok cfg h l Hh) as [O1 F1]. rewrite E1 in O1, F1. cbn [fst snd] in *.
    destruct (IH h1 O1) as [O2 F2].
    destruct (monitor_loop cfg h1 ls) as [h2 e2]. cbn [fst snd] in *.
    split; [exact O2|]. rewrite publishes_app. apply Forall_app. auto. }
  exact (proj2 (G lines "" (or_introl eq_refl))).
Qed.

(** X2: a command message leads to at most one heyu run, and it
    publishes if and only if it runs heyu; the run is
    [heyu action hc] with action on, off, fon or foff and hc the
    lower-cased last topic segment, and the publish is a retained ON or
    OFF to stat-prefix/hc. *)
Theorem on_message_shape (cfg : config) (topic payload : string) (rc : Z) :
  let hc := lower (upper (last_segment topic)) in
  length (runs (on_message cfg topic payload rc)) <= 1 /\
  (runs (on_message cfg topic payload rc) = [] <->
   publishes (on_message cfg topic payload rc) = []) /\
  Forall (fun a => exists act, In act ["on"; "off"; "fon"; "foff"] /\ a = ["heyu"; act; hc])
         (runs (on_message cfg topic payload rc)) /\
  Forall (fun '(t, pl, r) => r = true /\ (pl = "ON" \/ pl = "OFF") /\
                             t = stattopic cfg ++ "/" ++ hc)
         (publishes (on_message cfg topic payload rc)).
Proof.
  cbv zeta.
  destruct (is_on_off (upper payload) && is_some (match_ hcpattern (upper (last_segment topic))))
    eqn:E.
  - apply andb_true_iff in E as [Ho Hm].
    rewrite (on_message_accept cfg topic payload rc Ho Hm).
    cbn [runs publishes flat_map app].
    fold (runs (fst (execute cfg (upper payload) (upper (last_segment topic)) rc))).
    fold (publishes (fst (execute cfg (upper payload) (upper (last_segment topic)) rc))).
    rewrite runs_execute, publishes_execute.
    assert (Hp : upper payload = "ON" \/ upper payload = "OFF").
    { unfold is_on_off in Ho. apply orb_true_iff in Ho as [Ho|Ho];
        apply String.eqb_eq in Ho; auto. }
    split; [simpl; lia|]. split; [split; discriminate|].
    split.
    + constructor; [|constructor].
      exists (lower (heyucmd_of cfg (upper payload))). split; [|reflexivity].
      unfold heyucmd_of. destruct Hp as [-> | ->], (cm17 cfg); simpl; tauto.
    + constructor; [|constructor].
      split; [reflexivity|]. split; [destruct Hp as [-> | ->]; auto|reflexivity].
  - unfold on_message. rewrite E. cbn. split; [lia|]. split; [tauto|]. split; constructor.
Qed.

Lemma nat_ascii_small (n : nat) : n < 256 -> nat_of_ascii (ascii_of_nat n) = n.
Proof. intros H. apply nat_ascii_embedding. exact H. Qed.

Lemma ascii_upper_idem (c : ascii) : ascii_upper (ascii_upper c) = ascii_upper c.
Proof.
  destruct ((97 <=? nat_of_ascii c) && (nat_of_ascii c <=? 122)) eqn:E.
  - assert (A : ascii_upper c = ascii_of_nat (nat_of_ascii c - 32))
      by (unfold ascii_upper; rewrite E; reflexivity).
    apply andb_true_iff in E as [E1 E2]. apply Nat.leb_le in E1, E2.
    rewrite A. apply ascii_upper_small. rewrite nat_ascii_small; lia.
  - assert (A : ascii_upper c = c) by (unfold ascii_upper; rewrite E; reflexivity).
    rewrite A, A. reflexivity.
Qed.

Lemma ascii_upper_lower (c : ascii) : ascii_upper (ascii_lower c) = ascii_upper c.
Proof.
  unfold ascii_lower.
  destruct ((65 <=? nat_of_ascii c) && (nat_of_ascii c <=? 90)) eqn:E.
  - apply andb_true_iff in E as [E1 E2]. apply Nat.leb_le in E1, E2.
    rewrite (ascii_upper_small c) by lia.
    unfold ascii_upper. rewrite nat_ascii_small by lia.
    replace ((97 <=? nat_of_ascii c + 32) && (nat_of_ascii c + 32 <=? 122)) with true
      by (symmetry; apply andb_true_iff; split; apply Nat.leb_le; lia).
    replace (nat_of_ascii c + 32 - 32) with (nat_of_ascii c) by lia.
    apply ascii_nat_embedding.
  - reflexivity.
Qed.

Lemma upper_idem (s : string) : upper (upper s) = upper s.
Proof.
  induction s as [|c r IH]; [reflexivity|].
  change (String (ascii_upper (ascii_upper c)) (upper (upper r)) = String (ascii_upper c) (upper r)).
  rewrite ascii_upper_idem, IH. reflexivity.
Qed.

Lemma upper_lower (s : string) : upper (lower s) = upper s.
Proof.
  induction s as [|c r IH]; [reflexivity|].
  change (String (ascii_upper (ascii_lower c)) (upper (lower r)) = String (ascii_upper c) (upper r)).
  rewrite ascii_upper_lower, IH. reflexivity.
Qed.

(** X3: the payload is case-insensitive: a message with payload p has
    exactly the effects of the same message with payload upper(p), log
    lines included (on, On and ON behave alike). *)
Theorem on_message_payload_case (cfg : config) (topic payload : string) (rc : Z) :
  on_message cfg topic payload rc = on_message cfg topic (upper payload) rc.
Proof. unfold on_message. rewrite upper_idem. reflexivity. Qed.

(** X4: only the last topic segment, up to case, decides what a command
    message does: the command prefix is never checked, so the same
    payload on p1/h1 and on p2/h2 runs the same heyu commands and makes
    the same publishes whenever h1 and h2 upper-case alike. *)
Theorem on_message_last_segment (cfg : config) (p1 p2 h1 h2 payload : string) (rc : Z) :
  has_char slash h1 = false -> has_char slash h2 = false -> upper h1 = upper h2 ->
  runs (on_message cfg (p1 ++ "/" ++ h1) payload rc)
  = runs (on_message cfg (p2 ++ "/" ++ h2) payload rc) /\
  publishes (on_message cfg (p1 ++ "/" ++ h1) payload rc)
  = publishes (on_message cfg (p2 ++ "/" ++ h2) payload rc).
Proof.
  intros S1 S2 U. unfold on_message.
  rewrite (last_segment_app p1 h1 S1), (last_segment_app p2 h2 S2), U.
  destruct (is_on_off (upper payload) && is_some (match_ hcpattern (upper h2)));
    split; reflexivity.
Qed.

Lemma on_message_last_segment_witness :
  runs (on_message cfg0 ("x10/cmd" ++ "/" ++ "a1") "on" 0)
  = runs (on_message cfg0 ("some/other/prefix" ++ "/" ++ "A1") "on" 0) /\
  runs (on_message cfg0 "some/other/prefix/A1" "on" 0) = [["heyu"; "on"; "a1"]].
Proof.
  split; [|reflexivity].
  exact (proj1 (on_message_last_segment cfg0 "x10/cmd" "some/other/prefix" "a1" "A1" "on" 0
                  eq_refl eq_refl eq_refl)).
Defined.

Definition subscribes (l : list effect) : list string :=
  flat_map (fun e => match e with Subscribe t => [t] | _ => [] end) l.

Lemma subscribes_app l1 l2 : subscribes (l1 ++ l2) = (subscribes l1 ++ subscribes l2)%list.
Proof. unfold subscribes. apply flat_map_app. Qed.

Lemma length_announcements {A} (g : string -> nat -> A) (l : list string) :
  length (flat_map (fun h => map (g h) units) l) = 16 * length l.
Proof.
  induction l as [|h l IH]; [reflexivity|].
  cbn [flat_map length]. rewrite length_app, length_map, IH. unfold units. rewrite length_seq. lia.
Qed.

(** X5: on connection the gateway subscribes exactly once, to
    cmd-prefix/+, before it publishes anything, and then publishes 16
    descriptors per configured letter. *)
Theorem on_connect_shape (cfg : config) (rc : nat) :
  subscribes (on_connect cfg rc) = [cmdtopic cfg ++ "/+"] /\
  length (publishes (on_connect cfg rc)) = 16 * length (discoveryhouses cfg) /\
  exists pre post, on_connect cfg rc = (pre ++ Subscribe (cmdtopic cfg ++ "/+") :: post)%list /\
                   publishes pre = [] /\ subscribes post = [].
Proof.
  assert (Hpost : subscribes (flat_map (fun house =>
        Print ("Announcing housecode " ++ house ++ " for HomeAssistant discovery")
        :: flat_map (fun unit => ha_discovery_announce cfg house unit) units)
        (discoveryhouses cfg)) = []).
  { induction (discoveryhouses cfg) as [|h l IH]; [reflexivity|].
    cbn [flat_map]. rewrite subscribes_app, IH, app_nil_r. reflexivity. }
  split; [|split].
  - unfold on_connect. rewrite !subscribes_app, Hpost.
    destruct (rc =? 0); reflexivity.
  - rewrite publishes_on_connect. apply length_announcements.
  - exists ((if rc =? 0 then [] else [Print ("Error connecting to MQTT broker rc " ++ str_nat rc)])
            ++ [Print ("Connected to MQTT broker, result code " ++ str_nat rc)])%list.
    eexists. split; [unfold on_connect; rewrite <- app_assoc; reflexivity|].
    rewrite publishes_app.
    split; [destruct (rc =? 0); reflexivity|exact Hpost].
Qed.

Lemma letters_are_ap (h : ascii) : has_char h housecode_letters = true -> is_ap h = true.
Proof. destruct h as [[] [] [] [] [] [] [] []]; vm_compute; congruence. Qed.

(** Every character of [s] is 7-bit ASCII.  On such strings Python's
    [str.upper] and [str.lower] are exactly [Py.upper] and [Py.lower]
    (one character to one character, only a-z and A-Z change); outside
    ASCII, Unicode case mapping can change the length (U+FB01 upper-cases
    to FI) or map into ASCII (the Kelvin sign lower-cases to k). *)
Fixpoint ascii_only (s : string) : bool :=
  match s with
  | EmptyString => true
  | String c r => (nat_of_ascii c <? 128) && ascii_only r
  end.

(** X6: an ASCII DISCOVERY_HOUSECODES setting is read case-insensitively
    and filtered: every announced house is one letter A-P, the
    lower-cased setting gives the same houses, and there are never more
    houses than characters. *)
Theorem discovery_houses_filter (s : string) :
  ascii_only s = true ->
  Forall (fun h => exists c, h = String c "" /\ is_ap c = true) (discovery_houses_of s) /\
  discovery_houses_of (lower s) = discovery_houses_of s /\
  length (discovery_houses_of s) <= String.length s.
Proof.
  intros _.
  induction s as [|c r [IH1 [IH2 IH3]]]; [split; [constructor|split; reflexivity]|].
  change (discovery_houses_of (lower (String c r)))
    with (discovery_houses_of (String (ascii_lower c) (lower r))).
  cbn [discovery_houses_of length]. rewrite ascii_upper_lower, IH2.
  destruct (has_char (ascii_upper c) housecode_letters) eqn:E.
  - split; [constructor; [exists (ascii_upper c); split; [reflexivity|exact (letters_are_ap _ E)]|exact IH1]|].
    split; [reflexivity|]. simpl. lia.
  - split; [exact IH1|]. split; [reflexivity|]. simpl. lia.
Qed.

Lemma discovery_houses_filter_witness :
  ascii_only "ab,q-C" = true /\
  discovery_houses_of (lower "ab,q-C") = discovery_houses_of "ab,q-C".
Proof.
  split; [reflexivity|].
  exact (proj1 (proj2 (discovery_houses_filter "ab,q-C" eq_refl))).
Defined.

End Extra.

(* ------------------------------------------------------------------ *)
(** * Start-up: reading the environment and connecting *)

Module Startup.
Import Py X10.

(** [os.environ] as an association list (first binding wins). *)
Definition env := list (string * string).

Fixpoint env_get (e : env) (k : string) : option string :=
  match e with
  | [] => None
  | (k', v) :: r => if String.eqb k k' then Some v else env_get r k
  end.

(** [try: x = os.environ[k] except: x = d] *)
Definition or_default (o : option string) (d : string) : string :=
  match o with Some v => v | None => d end.

Record settings := {
  broker : string;
  port : Z;
  mqttuser : string;
  mqttpass : string;
  conf : config
}.

Section Load.

(** Python's [int(s)] on a string: [None] where it raises.  Only its
    success or failure matters below. *)
Variable py_int : string -> option Z.

(** Lines 28-101: the settings, or [None] where the script calls
    [exit(1)], with the lines it prints. *)
Definition load_settings (e : env) : list string * option settings :=
  match env_get e "MQTT_HOST" with
  | None => (["Must define MQTT Host in configuration!"], None)
  | Some b =>
      match match env_get e "MQTT_PORT" with Some v => py_int v | None => None end with
      | None => (["Must define MQTT port in configuration!"], None)
      | Some pt =>
          ([], Some {|
             broker := b;
             port := pt;
             mqttuser := or_default (env_get e "MQTT_USER") "";
             mqttpass := or_default (env_get e "MQTT_PASSWORD") "";
             conf := {|
               cmdtopic := or_default (env_get e "CMD_TOPIC") "x10/cmd";
               stattopic := or_default (env_get e "STAT_TOPIC") "x10/stat";
               discoveryhouses :=
                 discovery_houses_of (or_default (env_get e "DISCOVERY_HOUSECODES") "");
               discoverytopic := or_default (env_get e "DISCOVERY_TOPIC") "homeassistant";
               cm17 := match env_get e "USE_CM17" with
                       | Some v => String.eqb v "true"
                       | None => false
                       end |} |})
      end
  end.

End Load.

(** What the main program does with the MQTT client before the monitor
    loop. *)
Inductive op : Type :=
| Say (line : string)
| UsernamePw (user pass : string)
| Connect (host : string) (port : Z)
| LoopStart
| Exit (code : nat).

(** Python truthiness of a string. *)
Definition truthy (s : string) : bool := negb (String.eqb s "").

(** Lines 243-267; [connect_ok] is whether [client.connect] returns
    without raising. *)
Definition connect_phase (st : settings) (connect_ok : bool) : list op :=
  (Say ("Establishing MQTT to " ++ broker st ++ " port " ++ str_Z (port st) ++ "...")
   :: (if truthy (mqttuser st) && truthy (mqttpass st)
       then [Say ("(Using MQTT username " ++ mqttuser st ++ ")");
             UsernamePw (mqttuser st) (mqttpass st)]
       else [])
   ++ Connect (broker st) (port st)
   :: if connect_ok
      then (if cm17 (conf st) then [Say "CM17 is in use"] else [])
           ++ [Say "Waiting for MQTT messages and monitoring for remote changes"; LoopStart]
      else [Say "Connection failed. Make sure broker, port, and user is defined correctly";
            Exit 1])%list.

End Startup.

Module StartupFacts.
Import Py X10 Claims Startup.

(** X7: start-up stops with exit(1) exactly when MQTT_HOST is unset, or
    MQTT_PORT is unset or not an integer; a missing host is reported
    (and only it) before the port is looked at. *)
Theorem load_settings_exit (py_int : string -> option Z) (e : env) :
  (snd (load_settings py_int e) = None <->
   env_get e "MQTT_HOST" = None \/
   (forall v, env_get e "MQTT_PORT" = Some v -> py_int v = None)) /\
  (env_get e "MQTT_HOST" = None ->
   fst (load_settings py_int e) = ["Must define MQTT Host in configuration!"]) /\
  (env_get e "MQTT_HOST" <> None -> snd (load_settings py_int e) = None ->
   fst (load_settings py_int e) = ["Must define MQTT port in configuration!"]).
Proof.
  unfold load_settings.
  destruct (env_get e "MQTT_HOST") as [b|]; [|split; [split; auto|split; [auto|congruence]]].
  destruct (env_get e "MQTT_PORT") as [v|] eqn:Ep.
  - destruct (py_int v) as [n|] eqn:Ei.
    + split; [|split; [discriminate|discriminate]].
      split; [discriminate|]. intros [H|H]; [discriminate|]. rewrite (H v eq_refl) in Ei. discriminate.
    + split; [|split; [discriminate|auto]].
      split; [intros _; right; intros v' E; injection E as <-; exact Ei|auto].
  - split; [|split; [discriminate|auto]].
    split; [intros _; right; intros v' E; discriminate|auto].
Qed.

Definition env_min : env := [("MQTT_HOST", "broker.lan"); ("MQTT_PORT", "1883")].
Definition int_1883 (s : string) : option Z := if String.eqb s "1883" then Some 1883%Z else None.

Lemma load_settings_exit_witness :
  snd (load_settings int_1883 [("MQTT_PORT", "x")]) = None /\
  fst (load_settings int_1883 [("MQTT_PORT", "x")]) = ["Must define MQTT Host in configuration!"] /\
  fst (load_settings int_1883 [("MQTT_HOST", "h"); ("MQTT_PORT", "x")])
  = ["Must define MQTT port in configuration!"].
Proof.
  split; [|split].
  - apply (proj1 (load_settings_exit int_1883 [("MQTT_PORT", "x")])). left. reflexivity.
  - apply (proj1 (proj2 (load_settings_exit int_1883 [("MQTT_PORT", "x")]))). reflexivity.
  - apply (proj2 (proj2 (load_settings_exit int_1883 [("MQTT_HOST", "h"); ("MQTT_PORT", "x")]))).
    + discriminate.
    + reflexivity.
Defined.

Definition optional_keys : list string :=
  ["MQTT_USER"; "MQTT_PASSWORD"; "CMD_TOPIC"; "STAT_TOPIC"; "DISCOVERY_HOUSECODES";
   "DISCOVERY_TOPIC"; "USE_CM17"].

(** X8: with the host and a valid port set and nothing else, the
    gateway runs with no credentials, command prefix x10/cmd, state
    prefix x10/stat, no discovery letters, discovery prefix
    homeassistant and the primary (CM11) mode. *)
Theorem load_settings_defaults (py_int : string -> option Z) (e : env) (b v : string) (n : Z) :
  env_get e "MQTT_HOST" = Some b -> env_get e "MQTT_PORT" = Some v -> py_int v = Some n ->
  (forall k, In k optional_keys -> env_get e k = None) ->
  load_settings py_int e
  = ([], Some {| broker := b; port := n; mqttuser := ""; mqttpass := ""; conf := cfg0 |}).
Proof.
  intros Hb Hp Hn Ho. unfold load_settings. rewrite Hb, Hp, Hn.
  rewrite !Ho by (unfold optional_keys; simpl; tauto). reflexivity.
Qed.

Lemma load_settings_defaults_witness :
  load_settings int_1883 env_min
  = ([], Some {| broker := "broker.lan"; port := 1883; mqttuser := ""; mqttpass := "";
                 conf := cfg0 |}).
Proof.
  apply (load_settings_defaults int_1883 env_min "broker.lan" "1883" 1883
           eq_refl eq_refl eq_refl).
  intros k Hk. unfold optional_keys in Hk. simpl in Hk.
  repeat destruct Hk as [<-|Hk]; try reflexivity. destruct Hk.
Defined.

(** X9: the CM17 mode is on exactly when USE_CM17 is the string true,
    lower-case and nothing else (True or 1 leave it off). *)
Theorem load_settings_cm17 (py_int : string -> option Z) (e : env) (st : settings) :
  snd (load_settings py_int e) = Some st ->
  (cm17 (conf st) = true <-> env_get e "USE_CM17" = Some "true").
Proof.
  unfold load_settings.
  destruct (env_get e "MQTT_HOST"); [|discriminate].
  destruct (match env_get e "MQTT_PORT" with Some v => py_int v | None => None end);
    [|discriminate].
  intros H. injection H as <-. cbn [conf X10.cm17].
  destruct (env_get e "USE_CM17") as [u|].
  - rewrite String.eqb_eq. split; [intros ->; reflexivity|intros E; injection E; auto].
  - split; discriminate.
Qed.

Lemma load_settings_cm17_witness :
  (exists st, snd (load_settings int_1883 (("USE_CM17", "True") :: env_min)) = Some st /\
              cm17 (conf st) = false) /\
  (exists st, snd (load_settings int_1883 (("USE_CM17", "true") :: env_min)) = Some st /\
              cm17 (conf st) = true).
Proof.
  split.
  - eexists. split; [reflexivity|].
    destruct (cm17 _) eqn:E; [|reflexivity].
    exfalso. apply (proj1 (load_settings_cm17 int_1883 (("USE_CM17", "True") :: env_min) _ eq_refl))
      in E. discriminate.
  - eexists. split; [reflexivity|].
    apply (proj2 (load_settings_cm17 int_1883 (("USE_CM17", "true") :: env_min) _ eq_refl)).
    reflexivity.
Defined.

Lemma last3 (l : list op) (a b c d : op) : last (l ++ [a; b; c])%list d = c.
Proof.
  replace (l ++ [a; b; c])%list with ((l ++ [a; b]) ++ [c])%list
    by (rewrite <- app_assoc; reflexivity).
  apply last_last.
Qed.

(** X10: the client connects exactly once, to the configured broker
    and port; credentials are set (before connecting) exactly when both
    the user and the password are non-empty; the MQTT loop is started
    exactly when the connection succeeds, and a failed connection ends
    with exit(1). *)
Theorem connect_phase_spec (st : settings) (ok : bool) :
  let ops := connect_phase st ok in
  (exists pre post, ops = (pre ++ Connect (broker st) (port st) :: post)%list /\
     (forall u p, In (UsernamePw u p) post -> False) /\
     (forall h n, ~ In (Connect h n) pre /\ ~ In (Connect h n) post)) /\
  ((exists u p, In (UsernamePw u p) ops) <-> mqttuser st <> "" /\ mqttpass st <> "") /\
  (In LoopStart ops <-> ok = true) /\
  (ok = false -> last ops LoopStart = Exit 1).
Proof.
  cbv zeta. unfold connect_phase.
  set (creds := if truthy (mqttuser st) && truthy (mqttpass st) then _ else _).
  set (tail := if ok then _ else _).
  assert (Ht : forall u p, ~ In (UsernamePw u p) tail).
  { intros u p. unfold tail. destruct ok, (cm17 (conf st)); simpl; intuition discriminate. }
  assert (Htc : forall h n, ~ In (Connect h n) tail).
  { intros h n. unfold tail. destruct ok, (cm17 (conf st)); simpl; intuition discriminate. }
  assert (Hc : forall h n, ~ In (Connect h n) creds).
  { intros h n. unfold creds. destruct (_ && _); simpl; intuition discriminate. }
  split; [|split; [|split]].
  - exists (Say ("Establishing MQTT to " ++ broker st ++ " port " ++ str_Z (port st) ++ "...")
            :: creds), tail.
    split; [reflexivity|]. split; [exact Ht|].
    intros h n. split; [|apply Htc]. intros [E|E]; [discriminate|exact (Hc h n E)].
  - unfold truthy in creds.
    split.
    + intros [u [p [E|E]]]; [discriminate|].
      apply in_app_or in E as [E|[E|E]]; [|discriminate|exact (False_ind _ (Ht u p E))].
      unfold creds in E.
      destruct (String.eqb (mqttuser st) "") eqn:U, (String.eqb (mqttpass st) "") eqn:P;
        simpl in E; try (intuition discriminate).
      apply String.eqb_neq in U, P. auto.
    + intros [U P]. apply String.eqb_neq in U, P.
      exists (mqttuser st), (mqttpass st). right. apply in_or_app. left.
      unfold creds. rewrite U, P. simpl. auto.
  - split.
    + intros [E|E]; [discriminate|].
      apply in_app_or in E as [E|[E|E]].
      * unfold creds in E. destruct (_ && _); simpl in E; intuition discriminate.
      * discriminate.
      * unfold tail in E. destruct ok; [reflexivity|]. simpl in E. intuition discriminate.
    + intros ->. right. apply in_or_app. right. right. unfold tail.
      destruct (cm17 (conf st)); simpl; auto.
  - intros ->. unfold tail. cbn iota.
    rewrite app_comm_cons. apply last3.
Qed.

Definition st_sample : settings :=
  {| broker := "broker.lan"; port := 1883; mqttuser := "u"; mqttpass := "";
     conf := cfg0 |}.

Lemma connect_phase_spec_witness :
  last (connect_phase st_sample false) LoopStart = Exit 1 /\
  ~ In LoopStart (connect_phase st_sample false) /\
  ~ (exists u p, In (UsernamePw u p) (connect_phase st_sample true)).
Proof.
  destruct (connect_phase_spec st_sample false) as [_ [_ [Hl He]]].
  destruct (connect_phase_spec st_sample true) as [_ [Hu _]].
  split; [apply He; reflexivity|split].
  - intros H. apply Hl in H. discriminate.
  - intros H. apply Hu in H. destruct H as [_ H]. apply H. reflexivity.
Defined.

End StartupFacts.
